(** * miniSQL engine: a shallow embedding of [engine.py] and its properties

    The development follows the layout of the Python source:

    - [PyStr]   : the [str] methods the engine calls ([strip], [lower],
                  [upper], [find], slicing, [split], comparison);
    - [PyNum]   : [int(s)], [float(s)], [str(x)] and the comparison of
                  Python numbers;
    - [Shlex]   : the POSIX-mode scanner behind [shlex.split];
    - [Engine]  : the functions of [engine.py] themselves, with the same
                  names, exceptions as an error sum and the CSV loader as an
                  explicit table provider;
    - [Csv]     : [load_csv_table] over a file system that gives, for a
                  path, the rows [csv.reader] yields, with the dictionaries
                  [csv.DictReader] builds from them;
    - [Printer] : [print_results], the printed lines as a list;
    - the vocabulary of the properties (the shapes of lists, the fold of the
      specification, the pieces of a query text, the example table);
    - the properties of the parser, of the condition evaluator and of the
      execution engine.

    Text is modelled by [string], i.e. sequences of 8-bit characters; the
    model of the [str] methods is exact on ASCII text (Python's methods are
    Unicode aware on code points above 127). *)

From Stdlib Require Import ZArith Lia List String Ascii Bool.
From stdpp Require Import base option list strings gmap.

Local Open Scope string_scope.
Local Open Scope Z_scope.

(** ** Exceptions and the error monad *)

(** The exceptions the engine can raise, each carrying its message (the
    name of the unbound variable for [UnboundLocalError]); [OtherError] is
    any other exception that reading the table file can raise. *)
Inductive exn : Type :=
| ParseError (msg : string)
| ValueError (msg : string)
| KeyError (msg : string)
| FileNotFoundError (msg : string)
| UnboundLocalError (var : string)
| OtherError (name msg : string).

Inductive result (A : Type) : Type :=
| Ok (a : A)
| Raise (e : exn).
Arguments Ok {A} a.
Arguments Raise {A} e.

#[global] Instance result_ret : MRet result := fun A a => Ok a.
#[global] Instance result_bind : MBind result := fun A B k r =>
  match r with
  | Ok a => k a
  | Raise e => Raise e
  end.

Definition is_ok {A : Type} (r : result A) : bool :=
  match r with Ok _ => true | Raise _ => false end.

(** ** Python [str] methods *)

Module PyStr.

Definition code (c : ascii) : Z := Z.of_nat (nat_of_ascii c).

(** [str.isspace] on one character: TAB..CR, FS..US and the space. *)
Definition isspace (c : ascii) : bool :=
  ((9 <=? code c) && (code c <=? 13)) || ((28 <=? code c) && (code c <=? 32)).

Definition isupper (c : ascii) : bool := (65 <=? code c) && (code c <=? 90).
Definition islower (c : ascii) : bool := (97 <=? code c) && (code c <=? 122).
Definition isdigit (c : ascii) : bool := (48 <=? code c) && (code c <=? 57).

Definition lower_char (c : ascii) : ascii :=
  if isupper c then ascii_of_nat (nat_of_ascii c + 32) else c.
Definition upper_char (c : ascii) : ascii :=
  if islower c then ascii_of_nat (nat_of_ascii c - 32) else c.

Fixpoint map_chars (f : ascii -> ascii) (s : string) : string :=
  match s with
  | EmptyString => EmptyString
  | String c r => String (f c) (map_chars f r)
  end.

(** [s.lower()] and [s.upper()] *)
Definition lower : string -> string := map_chars lower_char.
Definition upper : string -> string := map_chars upper_char.

Fixpoint lstrip (s : string) : string :=
  match s with
  | EmptyString => EmptyString
  | String c r => if isspace c then lstrip r else s
  end.

Fixpoint rstrip (s : string) : string :=
  match s with
  | EmptyString => EmptyString
  | String c r =>
      match rstrip r with
      | EmptyString => if isspace c then EmptyString else String c EmptyString
      | r' => String c r'
      end
  end.

(** [s.strip()] *)
Definition strip (s : string) : string := rstrip (lstrip s).

Definition len (s : string) : Z := Z.of_nat (String.length s).

(** [s.find(sub)]: the first index of [sub] in [s], or [-1]. *)
Definition find (s sub : string) : Z :=
  match String.index 0 sub s with
  | Some n => Z.of_nat n
  | None => -1
  end.

(** [sub in s] *)
Definition contains (sub s : string) : bool :=
  match String.index 0 sub s with
  | Some _ => true
  | None => false
  end.

(** [s.startswith(p)] and [s.endswith(p)] *)
Definition startswith (s p : string) : bool := String.prefix p s.
Fixpoint endswith (s p : string) : bool :=
  String.eqb s p
  || match s with
     | String _ r => endswith r p
     | EmptyString => false
     end.

(** Slice bounds as Python normalises them: a negative bound counts from
    the end, and both bounds are clamped to [0 .. len]. *)
Definition clamp (n i : Z) : Z :=
  if i <? 0 then Z.max 0 (i + n) else Z.min i n.

(** [s[start:stop]] *)
Definition slice (s : string) (start stop : Z) : string :=
  let a := clamp (len s) start in
  let b := clamp (len s) stop in
  substring (Z.to_nat a) (Z.to_nat (b - a)) s.

(** [s[start:]] and [s[:stop]] *)
Definition slice_from (s : string) (start : Z) : string := slice s start (len s).
Definition slice_to (s : string) (stop : Z) : string := slice s 0 stop.

(** [s[i]] for an index known to be in range ([None] otherwise). *)
Definition getitem (s : string) (i : Z) : option ascii :=
  let j := if i <? 0 then i + len s else i in
  if j <? 0 then None else String.get (Z.to_nat j) s.

(** [s.split(sep)] for a one-character separator: at least one piece. *)
Fixpoint split (sep : ascii) (s : string) : list string :=
  match s with
  | EmptyString => [EmptyString]
  | String c r =>
      if Ascii.eqb c sep then EmptyString :: split sep r
      else match split sep r with
           | p :: ps => String c p :: ps
           | [] => [String c EmptyString]
           end
  end.

(** Comparison of two [str] values: code point by code point. *)
Definition eqb (a b : string) : bool := String.eqb a b.
Definition ltb (a b : string) : bool := String.ltb a b.
Definition leb (a b : string) : bool := String.leb a b.

End PyStr.

(** ** Python numbers: [int(s)], [float(s)], comparison and [str(x)] *)

Module PyNum.
Import PyStr.

Definition digit (c : ascii) : Z := code c - 48.

(** [digitpart ::= digit (["_"] digit)*], read to the end of the text:
    the value and the number of digits. *)
Fixpoint digits_from (acc : Z) (n : nat) (s : string) : option (Z * nat) :=
  match s with
  | EmptyString => Some (acc, n)
  | String c r =>
      if isdigit c then digits_from (10 * acc + digit c) (S n) r
      else if Ascii.eqb c "_" then
        match r with
        | String d r' =>
            if isdigit d then digits_from (10 * acc + digit d) (S n) r'
            else None
        | EmptyString => None
        end
      else None
  end.

Definition digitpart (s : string) : option (Z * nat) :=
  match s with
  | String c r => if isdigit c then digits_from (digit c) 1 r else None
  | EmptyString => None
  end.

Definition signed (s : string) : bool * string :=
  match s with
  | String c r =>
      if Ascii.eqb c "+" then (false, r)
      else if Ascii.eqb c "-" then (true, r)
      else (false, s)
  | EmptyString => (false, s)
  end.

Definition apply_sign (neg : bool) (v : Z) : Z := if neg then - v else v.

(** [int(s)]; [None] stands for the [ValueError] of a malformed text.  The
    interpreter's optional bound on the number of digits of a numeral
    ([sys.int_max_str_digits]) is not part of the model. *)
Definition int (s : string) : option Z :=
  let '(neg, body) := signed (strip s) in
  '(v, _) ← digitpart body;
  Some (apply_sign neg v).

(** A Python [float]: a binary64 value, kept as sign, integer mantissa and
    binary exponent (the value is [m * 2^e]), or an infinity.  No NaN is
    needed: the engine builds floats only from texts containing a ".". *)
Inductive float : Type :=
| Finite (neg : bool) (m e : Z)
| Infinite (neg : bool).

(** [num / den] rounded to the nearest integer, ties to even. *)
Definition round_nearest_even (num den : Z) : Z :=
  let q := num / den in
  let r := num mod den in
  if 2 * r <? den then q
  else if den <? 2 * r then q + 1
  else if Z.even q then q else q + 1.

(** [floor (log2 (p / q))] for positive [p] and [q]. *)
Definition ilog2 (p q : Z) : Z :=
  let d := Z.log2 p - Z.log2 q in
  let below := if 0 <=? d then p <? q * 2 ^ d else p * 2 ^ (- d) <? q in
  if below then d - 1 else d.

(** The binary64 nearest to [p / q] ([p >= 0], [q > 0]), ties to even:
    53 bits of mantissa, least exponent -1074, overflow to infinity. *)
Definition round_binary64 (neg : bool) (p q : Z) : float :=
  if p =? 0 then Finite neg 0 0
  else
    let ue := Z.max (ilog2 p q - 52) (-1074) in
    let m := if 0 <=? ue then round_nearest_even p (q * 2 ^ ue)
             else round_nearest_even (p * 2 ^ (- ue)) q in
    if 1024 <=? Z.log2 m + ue then Infinite neg else Finite neg m ue.

(** [d * 10^t] as a fraction. *)
Definition decimal (d t : Z) : Z * Z :=
  if 0 <=? t then (d * 10 ^ t, 1) else (d, 10 ^ (- t)).

Definition round_decimal (neg : bool) (d t : Z) : float :=
  let '(p, q) := decimal d t in round_binary64 neg p q.

(** The text before the first character satisfying [p], and the text
    after it when there is one. *)
Fixpoint split_at (p : ascii -> bool) (s : string) : string * option string :=
  match s with
  | EmptyString => (EmptyString, None)
  | String c r =>
      if p c then (EmptyString, Some r)
      else let '(a, b) := split_at p r in (String c a, b)
  end.

Definition opt_digitpart (s : string) : option (Z * nat) :=
  match s with
  | EmptyString => Some (0, 0%nat)
  | _ => digitpart s
  end.

(** [float(s)] for a text holding a "." (the only texts the engine passes):
    [[sign] ([digitpart] "." digitpart | digitpart ["."]) [("e"|"E") [sign]
    digitpart]], correctly rounded; [None] stands for [ValueError]. *)
Definition float_of_str (s : string) : option float :=
  let '(neg, body) := signed (strip s) in
  let '(mant, ex) := split_at (fun c => Ascii.eqb c "e" || Ascii.eqb c "E") body in
  let '(ip, fp) := split_at (fun c => Ascii.eqb c ".") mant in
  '(iv, ni) ← opt_digitpart ip;
  '(fv, nf) ← from_option opt_digitpart (Some (0, 0%nat)) fp;
  if (ni + nf =? 0)%nat then None
  else
    e ← match ex with
        | None => Some 0
        | Some x =>
            let '(eneg, eb) := signed x in
            '(ev, _) ← digitpart eb;
            Some (apply_sign eneg ev)
        end;
    Some (round_decimal neg (iv * 10 ^ Z.of_nat nf + fv) (e - Z.of_nat nf)).

(** A Python number, as [try_parse_number] can return it. *)
Inductive number : Type :=
| Int (z : Z)
| Float (f : float).

Definition float_of_int (z : Z) : float := Finite (z <? 0) (Z.abs z) 0.

Definition signed_mantissa (neg : bool) (m : Z) : Z := apply_sign neg m.

(** Order of two floats by the values they denote ([-0.0] equals [0.0]). *)
Definition fcompare (a b : float) : comparison :=
  match a, b with
  | Infinite na, Infinite nb =>
      match na, nb with
      | true, false => Lt
      | false, true => Gt
      | _, _ => Eq
      end
  | Infinite na, Finite _ _ _ => if na then Lt else Gt
  | Finite _ _ _, Infinite nb => if nb then Gt else Lt
  | Finite na ma ea, Finite nb mb eb =>
      let e := Z.min ea eb in
      Z.compare (signed_mantissa na ma * 2 ^ (ea - e))
                (signed_mantissa nb mb * 2 ^ (eb - e))
  end.

(** Python compares an [int] with a [float] by their exact values. *)
Definition compare (a b : number) : comparison :=
  match a, b with
  | Int x, Int y => Z.compare x y
  | Int x, Float g => fcompare (float_of_int x) g
  | Float f, Int y => fcompare f (float_of_int y)
  | Float f, Float g => fcompare f g
  end.

Definition eqb (a b : number) : bool :=
  match compare a b with Eq => true | _ => false end.
Definition ltb (a b : number) : bool :=
  match compare a b with Lt => true | _ => false end.
Definition leb (a b : number) : bool :=
  match compare a b with Gt => false | _ => true end.

(** *** [str(x)] *)

Definition digit_char (d : Z) : ascii := ascii_of_nat (Z.to_nat (48 + d)).

(** The decimal digits of [n >= 0] in front of [acc]; [fuel] bounds the
    number of digits. *)
Fixpoint str_digits (fuel : nat) (n : Z) (acc : string) : string :=
  let acc' := String (digit_char (n mod 10)) acc in
  match fuel with
  | O => acc'
  | S f => if n <? 10 then acc' else str_digits f (n / 10) acc'
  end.

Definition str_nat (n : Z) : string :=
  str_digits (Z.to_nat (Z.log2 n)) n EmptyString.

(** [str(z)] for an [int] *)
Definition str_int (z : Z) : string :=
  if z <? 0 then String "-" (str_nat (- z)) else str_nat z.

(** [p / q < 10^k] *)
Definition below_pow10 (p q k : Z) : bool :=
  if 0 <=? k then p <? q * 10 ^ k else p * 10 ^ (- k) <? q.

(** The least [k' >= k] with [p / q < 10^k']: the position of the decimal
    point of [p / q] written as [0.d1d2... * 10^k']. *)
Fixpoint decpt_from (fuel : nat) (k p q : Z) : Z :=
  match fuel with
  | O => k
  | S f => if below_pow10 p q k then k else decpt_from f (k + 1) p q
  end.

Definition same_value (a b : float) : bool :=
  match a, b with
  | Finite _ _ _, Finite _ _ _ =>
      match fcompare a b with Eq => true | _ => false end
  | _, _ => false
  end.

(** The shortest decimal that reads back as [x = p / q > 0], and among
    those of that length the nearest to [x]: its digits as an integer of
    [d] digits or more, and the position of its decimal point.  With 17
    digits the nearest decimal always reads back. *)
Fixpoint shortest (fuel : nat) (d : Z) (x : float) (p q k : Z) : Z * Z :=
  let t := k - d in
  let '(num, den) := if 0 <=? t then (p, q * 10 ^ t) else (p * 10 ^ (- t), q) in
  let lo := num / den in
  let hi := lo + 1 in
  let nearest := if 2 * (num mod den) <=? den then lo else hi in
  let lo_ok := same_value (round_decimal false lo t) x in
  let hi_ok := same_value (round_decimal false hi t) x in
  let found c := if c =? 10 ^ d then (1, k + 1) else (c, k) in
  match fuel with
  | O => found nearest
  | S f =>
      if lo_ok && hi_ok then found nearest
      else if lo_ok then found lo
      else if hi_ok then found hi
      else shortest f (d + 1) x p q k
  end.

Fixpoint zeros (n : nat) : string :=
  match n with
  | O => EmptyString
  | S k => String "0" (zeros k)
  end.

Fixpoint rstrip_zeros (s : string) : string :=
  match s with
  | EmptyString => EmptyString
  | String c r =>
      match rstrip_zeros r with
      | EmptyString => if Ascii.eqb c "0" then EmptyString else String c EmptyString
      | r' => String c r'
      end
  end.

(** The layout of [repr] for the digits [ds] with the decimal point at
    [decpt]: exponent notation below 1e-4 and from 1e16 on, otherwise
    positional with at least one digit after the point. *)
Definition layout (ds : string) (decpt : Z) : string :=
  let n := len ds in
  if (decpt <=? -4) || (16 <? decpt) then
    let ex := decpt - 1 in
    let exs := str_nat (Z.abs ex) in
    let exs := if Z.abs ex <? 10 then String "0" exs else exs in
    let mant := match ds with
                | String c EmptyString => ds
                | String c r => String c (String "." r)
                | EmptyString => ds
                end in
    mant ++ "e" ++ (if ex <? 0 then "-" else "+") ++ exs
  else if decpt <=? 0 then "0." ++ zeros (Z.to_nat (- decpt)) ++ ds
  else if decpt <? n then
    substring 0 (Z.to_nat decpt) ds ++ "." ++
    substring (Z.to_nat decpt) (Z.to_nat (n - decpt)) ds
  else ds ++ zeros (Z.to_nat (decpt - n)) ++ ".0".

(** [str(f)] for a [float] (its [repr]) *)
Definition str_float (f : float) : string :=
  match f with
  | Infinite neg => if neg then "-inf" else "inf"
  | Finite neg m e =>
      let sign := if neg then "-" else EmptyString in
      if m =? 0 then sign ++ "0.0"
      else
        let '(p, q) := if 0 <=? e then (m * 2 ^ e, 1) else (m, 2 ^ (- e)) in
        let k := decpt_from 640 (-324) p q in
        let '(c, k') := shortest 16 1 (Finite false m e) p q k in
        sign ++ layout (rstrip_zeros (str_nat c)) k'
  end.

Definition str (x : number) : string :=
  match x with
  | Int z => str_int z
  | Float f => str_float f
  end.

End PyNum.

(** ** [shlex.split]: the POSIX-mode scanner *)

(** [shlex.split(s)] runs a [shlex] instance with [posix=True],
    [whitespace_split=True] and no comment characters over the text, and
    collects the tokens of [read_token] until the end-of-file token.  The
    scanner state is [' '] (between tokens), ['a'] (inside a word), a quote
    character, or the escape character. *)
Module Shlex.

Inductive lex_state : Type :=
| Blank                  (* state ' ' *)
| Word                   (* state 'a' *)
| Quote (q : ascii)      (* state in quotes *)
| Escape.                (* state in escape *)

Definition dquote : ascii := "034"%char.
Definition backslash : ascii := "092"%char.

(** [whitespace] is the space, TAB, CR and LF; [quotes] the single and the
    double quote; [escape] the backslash; [escapedquotes] the double quote. *)
Definition whitespace (c : ascii) : bool :=
  Ascii.eqb c " " || Ascii.eqb c "009" || Ascii.eqb c "013" || Ascii.eqb c "010".
Definition quotes (c : ascii) : bool := Ascii.eqb c "'" || Ascii.eqb c dquote.
Definition escape (c : ascii) : bool := Ascii.eqb c backslash.
Definition escapedquotes (c : ascii) : bool := Ascii.eqb c dquote.

Definition push (token : string) (c : ascii) : string :=
  token ++ String c EmptyString.

(** The registers of [read_token] between two characters. *)
Record lexer : Type := Lexer {
  state : lex_state;
  escapedstate : lex_state;
  token : string;
  quoted : bool
}.

Inductive outcome : Type :=
| Continue (l : lexer)       (* read the next character *)
| Break (l : lexer).         (* leave the loop: the token is complete *)

(** One turn of the loop of [read_token] on the character [nextchar]. *)
Definition read_char (l : lexer) (nextchar : ascii) : outcome :=
  match state l with
  | Blank =>
      if whitespace nextchar then
        if negb (String.eqb (token l) EmptyString) || quoted l then Break l
        else Continue l
      else if escape nextchar then
        Continue (Lexer Escape Word (token l) (quoted l))
      else if quotes nextchar then
        Continue (Lexer (Quote nextchar) (escapedstate l) (token l) (quoted l))
      else
        Continue (Lexer Word (escapedstate l) (String nextchar EmptyString) (quoted l))
  | Quote q =>
      if Ascii.eqb nextchar q then
        Continue (Lexer Word (escapedstate l) (token l) true)
      else if escape nextchar && escapedquotes q then
        Continue (Lexer Escape (Quote q) (token l) true)
      else
        Continue (Lexer (Quote q) (escapedstate l) (push (token l) nextchar) true)
  | Escape =>
      let keep :=
        match escapedstate l with
        | Quote q => negb (Ascii.eqb nextchar backslash) && negb (Ascii.eqb nextchar q)
        | _ => false
        end in
      let tok := if keep then push (token l) backslash else token l in
      Continue (Lexer (escapedstate l) (escapedstate l) (push tok nextchar) (quoted l))
  | Word =>
      if whitespace nextchar then
        let l' := Lexer Blank (escapedstate l) (token l) (quoted l) in
        if negb (String.eqb (token l) EmptyString) || quoted l then Break l'
        else Continue l'
      else if quotes nextchar then
        Continue (Lexer (Quote nextchar) (escapedstate l) (token l) (quoted l))
      else if escape nextchar then
        Continue (Lexer Escape Word (token l) (quoted l))
      else
        Continue (Lexer Word (escapedstate l) (push (token l) nextchar) (quoted l))
  end.

(** What [read_token] returns when the loop is left: [None] is the
    end-of-file token, which ends the iteration. *)
Definition finish (l : lexer) : option string :=
  if negb (quoted l) && String.eqb (token l) EmptyString then None
  else Some (token l).

(** A new call of [read_token]: the state is kept, the token is empty. *)
Definition restart (l : lexer) : lexer := Lexer (state l) Blank EmptyString false.

(** The tokens read from [chars] on, with the registers [l]. *)
Fixpoint tokens_from (chars : string) (l : lexer) : result (list string) :=
  match chars with
  | String c r =>
      match read_char l c with
      | Continue l' => tokens_from r l'
      | Break l' =>
          match finish l' with
          | Some t => ts ← tokens_from r (restart l'); Ok (t :: ts)
          | None => Ok []
          end
      end
  | EmptyString =>
      match state l with
      | Blank | Word => Ok (match finish l with Some t => [t] | None => [] end)
      | Quote _ => Raise (ValueError "No closing quotation")
      | Escape => Raise (ValueError "No escaped character")
      end
  end.

Definition split (s : string) : result (list string) :=
  tokens_from s (Lexer Blank Blank EmptyString false).

End Shlex.

(** ** The engine *)

Module Engine.
Import PyStr.

(** *** Helpers *)

(** What [try_parse_number] returns: an [int], a [float], or the text. *)
Inductive value : Type :=
| Num (n : PyNum.number)
| Str (s : string).

Definition try_parse_number (s : string) : value :=
  let s := strip s in
  if eqb s EmptyString then Str s
  else if contains "." s then
    match PyNum.float_of_str s with
    | Some f => Num (PyNum.Float f)
    | None => Str s
    end
  else
    match PyNum.int s with
    | Some z => Num (PyNum.Int z)
    | None => Str s
    end.

Definition normalize_colname (c : string) : string := lower (strip c).

Definition unquote_value (token : string) : string :=
  let token := strip token in
  if (2 <=? len token) && bool_decide (getitem token 0 = Some "'"%char)
     && bool_decide (getitem token (-1) = Some "'"%char)
  then slice token 1 (-1)
  else token.

(** *** Data *)

(** A row of the table: a [dict] from normalized column name to text. *)
Abbreviation row := (gmap string string).

(** The table provider standing for [load_csv_table]: the rows and the
    normalized column names of the named table, or the exception raised. *)
Definition loader : Type := string -> result (list row * list string).

(** *** Parsing *)

Definition parse_select_list (token : string) : list string :=
  let token := strip token in
  if eqb token "*" then ["*"]
  else strip <$> filter (fun p => strip p ≠ EmptyString) (split "," token).

(** A condition [{'col': .., 'op': .., 'raw_val': ..}] *)
Record condition : Type := Condition {
  col : string;
  op : string;
  raw_val : string
}.

(** An element of a condition list: a condition or the text of a logical
    operator. *)
Inductive cond_item : Type :=
| Cond (c : condition)
| Logic (s : string).

Definition is_logic (tok : string) : bool :=
  eqb (upper tok) "AND" || eqb (upper tok) "OR".

Definition operators : list string := ["="; "!="; "<"; ">"; "<="; ">="].

(** The loop of [parse_where_clause] from index [i] on, [tokens] being the
    tokens from [i] to the end. *)
Fixpoint parse_conditions (tokens : list string) : result (list cond_item) :=
  match tokens with
  | [] => Ok []
  | tok :: rest =>
      if is_logic tok then
        conditions ← parse_conditions rest; Ok (Logic (upper tok) :: conditions)
      else
        match rest with
        | o :: val :: rest' =>
            if bool_decide (o ∈ operators) then
              conditions ← parse_conditions rest';
              Ok (Cond (Condition tok o val) :: conditions)
            else Raise (ParseError ("Invalid operator '" ++ o ++ "' in WHERE."))
        | _ => Raise (ParseError "Malformed WHERE condition.")
        end
  end.

Definition parse_where_clause (where_part : string) : result (list cond_item) :=
  tokens ← Shlex.split where_part;
  parse_conditions tokens.

(** The dictionary returned by [parse_query]. *)
Record parsed : Type := Parsed {
  q_select : list string;
  q_from : string;
  q_where : option (list cond_item);
  q_raw_sql : string
}.

Definition parse_query (sql : string) : result parsed :=
  let original := strip sql in
  let original := if endswith original ";" then strip (slice_to original (-1))
                  else original in
  let low := lower original in
  if negb (contains "select" low) || negb (contains " from " low) then
    Raise (ParseError "Query must contain SELECT and FROM clauses.")
  else
    let sel_pos := find low "select" in
    let from_pos := find low " from " in
    let select_part := strip (slice original (sel_pos + len "select") from_pos) in
    let remaining := strip (slice_from original (from_pos + len " from ")) in
    let where_index := find (lower remaining) " where " in
    '(table_part, where_clause) ←
      (if negb (where_index =? -1) then
         let table_part := strip (slice_to remaining where_index) in
         let where_part := strip (slice_from remaining (where_index + len " where ")) in
         where_clause ← parse_where_clause where_part;
         Ok (table_part, Some where_clause)
       else Ok (strip remaining, None));
    let select_list := parse_select_list select_part in
    Ok (Parsed select_list table_part where_clause sql).

(** *** WHERE evaluation *)

Definition compare_values (left_raw op right_raw : string) : bool :=
  match try_parse_number left_raw, try_parse_number right_raw with
  | Num l, Num r =>
      if eqb op "=" then PyNum.eqb l r
      else if eqb op "!=" then negb (PyNum.eqb l r)
      else if eqb op "<" then PyNum.ltb l r
      else if eqb op ">" then PyNum.ltb r l
      else if eqb op "<=" then PyNum.leb l r
      else if eqb op ">=" then PyNum.leb r l
      else false
  | l, r =>
      let str v := match v with Num n => PyNum.str n | Str s => s end in
      let left_s := lower (strip (str l)) in
      let right_s := lower (strip (str r)) in
      if eqb op "=" then eqb left_s right_s
      else if eqb op "!=" then negb (eqb left_s right_s)
      else if eqb op "<" then ltb left_s right_s
      else if eqb op ">" then ltb right_s left_s
      else if eqb op "<=" then leb left_s right_s
      else if eqb op ">=" then leb right_s left_s
      else false
  end.

(** [row[key]] *)
Definition getitem (r : row) (key : string) : result string :=
  match r !! key with
  | Some v => Ok v
  | None => Raise (KeyError key)
  end.

(** One turn of the loop of [evaluate_conditions]: [result] is [None] or a
    truth value, [prev_op] is unbound ([None]) or the last operator. *)
Definition eval_step (r : row) (st : option bool * option string)
    (cond : cond_item) : result (option bool * option string) :=
  let '(result, prev_op) := st in
  match cond with
  | Cond c =>
      v ← getitem r (normalize_colname (col c));
      let res := compare_values v (op c) (unquote_value (raw_val c)) in
      match result with
      | None => Ok (Some res, prev_op)
      | Some b =>
          match prev_op with
          | None => Raise (UnboundLocalError "prev_op")
          | Some o =>
              if eqb o "AND" then Ok (Some (b && res), prev_op)
              else if eqb o "OR" then Ok (Some (b || res), prev_op)
              else Ok (Some b, prev_op)
          end
      end
  | Logic o => Ok (result, Some o)
  end.

Fixpoint eval_loop (r : row) (st : option bool * option string)
    (conditions : list cond_item) : result (option bool) :=
  match conditions with
  | [] => Ok (fst st)
  | cond :: rest => st' ← eval_step r st cond; eval_loop r st' rest
  end.

(** The value returned is [True], [False] or [None]. *)
Definition evaluate_conditions (r : row) (conditions : option (list cond_item))
    : result (option bool) :=
  match conditions with
  | None | Some [] => Ok (Some true)
  | Some conds => eval_loop r (None, None) conds
  end.

(** *** Execution *)

(** Truth of the value of [evaluate_conditions] in [if]: [None] is false. *)
Definition truthy (v : option bool) : bool := default false v.

(** [[r for r in rows if evaluate_conditions(r, where)]] *)
Fixpoint filter_rows (rows : list row) (conditions : option (list cond_item))
    : result (list row) :=
  match rows with
  | [] => Ok []
  | r :: rest =>
      v ← evaluate_conditions r conditions;
      filtered ← filter_rows rest conditions;
      Ok (if truthy v then r :: filtered else filtered)
  end.

(** What [execute_query] returns: rows, or [{'expr': .., 'count': ..}]
    records. *)
Inductive query_result : Type :=
| Rows (rows : list row)
| Counts (results : list (string * Z)).

Definition is_count (s : string) : bool := startswith (lower s) "count(".

(** One turn of the loop over the select list in the COUNT branch. *)
Definition count_entry (filtered : list row) (s : string) : string * Z :=
  let inner := strip (slice s (find s "(" + 1) (find s ")")) in
  if eqb inner "*" then ("COUNT(*)", Z.of_nat (length filtered))
  else
    let c := Z.of_nat (length (filter
               (fun r : row => strip (default EmptyString (r !! normalize_colname inner))
                               ≠ EmptyString) filtered)) in
    ("COUNT(" ++ inner ++ ")", c).

(** The inner loop of the projection: [row_out] after the columns [sel]. *)
Fixpoint project_row (r : row) (sel : list string) (row_out : row) : result row :=
  match sel with
  | [] => Ok row_out
  | c :: rest =>
      let norm_col := normalize_colname c in
      match r !! norm_col with
      | None => Raise (KeyError ("Column '" ++ c ++ "' not found."))
      | Some v => project_row r rest (<[c := v]> row_out)
      end
  end.

Fixpoint project (filtered : list row) (sel : list string) : result (list row) :=
  match filtered with
  | [] => Ok []
  | r :: rest =>
      row_out ← project_row r sel ∅;
      projected ← project rest sel;
      Ok (row_out :: projected)
  end.

Definition execute_query (load_csv_table : loader) (p : parsed) : result query_result :=
  let table_name := q_from p in
  '(rows, columns) ← load_csv_table table_name;
  filtered ← filter_rows rows (q_where p);
  let sel := q_select p in
  if bool_decide (sel = ["*"]) then Ok (Rows filtered)
  else if existsb is_count sel then Ok (Counts (count_entry filtered <$> sel))
  else projected ← project filtered sel; Ok (Rows projected).

End Engine.

(** ** Reading the table: [csv.DictReader] and [load_csv_table] *)

(** The file system, as [load_csv_table] sees it: a path that does not exist
    is [None]; for a path that exists, what iterating [csv.reader] over the
    opened file gives: the rows it yields, each a list of fields, and then
    the end of the file ([None]) or the exception raised ([Some e]; a file
    that cannot be opened yields no row and raises). *)
Module Csv.
Import PyStr.

Definition reading : Type := list (list string) * option exn.
Definition file_system : Type := string -> option reading.

(** A value of the dictionary of [DictReader]: a field, [None] for a field
    missing from a short row ([restval]), or the list of the fields in
    excess of a long row. *)
Inductive cell : Type :=
| Field (s : string)
| Missing
| Excess (fields : list string).

(** A [dict] in insertion order; the key [None] is [restkey]. *)
Definition raw_row : Type := list (option string * cell).

(** [d[k] = v]: the value is replaced in place, a new key goes last. *)
Fixpoint setitem (d : raw_row) (k : option string) (v : cell) : raw_row :=
  match d with
  | [] => [(k, v)]
  | (k', v') :: d' =>
      if decide (k' = k) then (k, v) :: d' else (k', v') :: setitem d' k v
  end.

(** [dict(zip(fieldnames, row))], from the dictionary [d] on. *)
Fixpoint dict_zip (d : raw_row) (fieldnames row : list string) : raw_row :=
  match fieldnames, row with
  | k :: ks, v :: vs => dict_zip (setitem d (Some k) (Field v)) ks vs
  | _, _ => d
  end.

(** The dictionary [DictReader.__next__] builds from one row. *)
Definition dict_of_row (fieldnames row : list string) : raw_row :=
  let d := dict_zip [] fieldnames row in
  let lf := length fieldnames in
  let lr := length row in
  if (lf <? lr)%nat then setitem d None (Excess (drop lf row))
  else if (lr <? lf)%nat then
    fold_left (fun d key => setitem d (Some key) Missing) (drop lr fieldnames) d
  else d.

(** The dictionary comprehension of [load_csv_table] over the items of a
    dictionary, in order: the key is normalized, then the value trimmed. *)
Fixpoint normalize_items (items : raw_row) (acc : Engine.row) : result Engine.row :=
  match items with
  | [] => Ok acc
  | (None, _) :: _ =>
      Raise (OtherError "AttributeError" "'NoneType' object has no attribute 'strip'")
  | (Some k, Field v) :: rest =>
      normalize_items rest (<[Engine.normalize_colname k := strip v]> acc)
  | (Some k, Missing) :: rest =>
      normalize_items rest (<[Engine.normalize_colname k := EmptyString]> acc)
  | (Some k, Excess _) :: _ =>
      Raise (OtherError "AttributeError" "'list' object has no attribute 'strip'")
  end.

(** The loop [for raw_row in reader] over the rows after the header: blank
    rows are skipped by [DictReader]; the exception of the reader, if any,
    is raised when its rows are used up. *)
Fixpoint load_rows (fieldnames : list string) (records : list (list string))
    (stop : option exn) : result (list Engine.row) :=
  match records with
  | [] => match stop with None => Ok [] | Some e => Raise e end
  | [] :: rest => load_rows fieldnames rest stop
  | record :: rest =>
      r ← normalize_items (dict_of_row fieldnames record) ∅;
      rows ← load_rows fieldnames rest stop;
      Ok (r :: rows)
  end.

(** [for c in candidates: if os.path.exists(c): filepath = c; break] *)
Fixpoint first_existing (fs : file_system) (candidates : list string)
    : option (string * reading) :=
  match candidates with
  | [] => None
  | c :: rest =>
      match fs c with
      | Some content => Some (c, content)
      | None => first_existing fs rest
      end
  end.

Definition candidates (table_name : string) : list string :=
  if endswith (lower table_name) ".csv" then [table_name]
  else [table_name; table_name ++ ".csv"].

Definition load_csv_table (fs : file_system) (table_name : string)
    : result (list Engine.row * list string) :=
  match first_existing fs (candidates table_name) with
  | None => Raise (FileNotFoundError ("CSV file '" ++ table_name ++ "' not found."))
  | Some (filepath, (records, stop)) =>
      match records with
      | [] =>
          (* [fieldnames] is [None] or the header could not be read *)
          match stop with
          | None => Ok ([], [])
          | Some e => Raise e
          end
      | fieldnames :: records' =>
          rows ← load_rows fieldnames records' stop;
          Ok (rows, Engine.normalize_colname <$> fieldnames)
      end
  end.

End Csv.

(** ** Printing: [print_results] *)

(** The rows handed to [print_results] are dictionaries in insertion order
    whose values are texts or, for counts, integers; what is printed is the
    list of the lines given to [print]. *)
Module Printer.
Import PyStr.

Inductive pyval : Type :=
| VStr (s : string)
| VInt (z : Z).

(** [str(v)] *)
Definition str (v : pyval) : string :=
  match v with
  | VStr s => s
  | VInt z => PyNum.str_int z
  end.

Definition record : Type := list (string * pyval).

(** [r.get(c)], [c in r] and [list(r.keys())] *)
Fixpoint get (r : record) (c : string) : option pyval :=
  match r with
  | [] => None
  | (k, v) :: r' => if String.eqb k c then Some v else get r' c
  end.
Definition has_key (r : record) (c : string) : bool :=
  match get r c with Some _ => true | None => false end.
Definition keys (r : record) : list string := fst <$> r.

Fixpoint repeat_char (c : ascii) (n : nat) : string :=
  match n with
  | O => EmptyString
  | S k => String c (repeat_char c k)
  end.

(** [s.ljust(width)] *)
Definition ljust (s : string) (width : nat) : string :=
  s ++ repeat_char " " (width - String.length s).

(** [sep.join(parts)] *)
Fixpoint join (sep : string) (parts : list string) : string :=
  match parts with
  | [] => EmptyString
  | [p] => p
  | p :: rest => p ++ sep ++ join sep rest
  end.

(** [str(r.get(c, ''))] *)
Definition cell_text (r : record) (c : string) : string :=
  match get r c with
  | Some v => str v
  | None => EmptyString
  end.

(** [max(len(str(c)), max(len(str(r.get(c, ''))) for r in rows))]; the inner
    maximum is taken over a non-empty sequence. *)
Definition width (rows : list record) (c : string) : nat :=
  Nat.max (String.length c)
          (fold_right Nat.max 0%nat ((fun r => String.length (cell_text r c)) <$> rows)).

Definition print_results (rows : list record) : list string :=
  match rows with
  | [] => ["(no rows)"]
  | first :: _ =>
      if forallb (fun r => has_key r "expr" && has_key r "count") rows then
        (fun r => cell_text r "expr" ++ ": " ++ cell_text r "count") <$> rows
      else
        let cols := keys first in
        join " | " ((fun c => ljust c (width rows c)) <$> cols)
        :: join "-+-" ((fun c => repeat_char "-" (width rows c)) <$> cols)
        :: ((fun r => join " | " ((fun c => ljust (cell_text r c) (width rows c)) <$> cols))
              <$> rows)
  end.

End Printer.

(** * Vocabulary of the properties *)

Import Engine.

(** ** Condition lists *)

(** The truth value of one condition on a row: the look-up of the
    normalized column, then the comparison with the unquoted literal. *)
Definition cond_holds (r : row) (c : condition) : result bool :=
  v ← Engine.getitem r (normalize_colname (col c));
  Ok (compare_values v (op c) (unquote_value (raw_val c))).

(** The combinator named by a logical operator. *)
Definition combine (o : string) (acc b : bool) : bool :=
  if PyStr.eqb o "AND" then acc && b
  else if PyStr.eqb o "OR" then acc || b
  else acc.

(** The fold as the specification words it: the running [result] is
    combined with each further condition, in textual order, by the operator
    in front of that condition. *)
Fixpoint fold_conditions (r : row) (acc : bool) (rest : list (string * condition))
    : result bool :=
  match rest with
  | [] => Ok acc
  | (o, c) :: rest' => b ← cond_holds r c; fold_conditions r (combine o acc b) rest'
  end.

(** The flat list [c0, o1, c1, o2, c2, ...] *)
Definition flat (c0 : condition) (rest : list (string * condition)) : list cond_item :=
  Cond c0 :: flat_map (fun oc => [Logic (fst oc); Cond (snd oc)]) rest.

(** The test of the condition [{c, '=', v}] on a row holding the column. *)
Definition equals (c v : string) (r : row) : bool :=
  compare_values (default EmptyString (r !! normalize_colname c)) "="
                 (unquote_value v).

Definition is_operator (i : cond_item) : Prop :=
  match i with Logic _ => True | Cond _ => False end.

(** ** Tables *)

(** The rows of a table hold exactly the columns of the table. *)
Definition row_of (columns : list string) (r : row) : Prop :=
  dom r = (list_to_set columns : gset string).

(** ** Shapes of condition lists and of token lists *)

(** What every element of a parsed condition list satisfies. *)
Definition well_formed (i : cond_item) : Prop :=
  match i with
  | Cond c => op c ∈ operators /\ is_logic (col c) = false
  | Logic o => o = "AND" \/ o = "OR"
  end.




(** ** Comparison of values *)

(** The truth of the operator [op] on the outcome of a three-way
    comparison. *)
Definition holds (op : string) (c : comparison) : bool :=
  if PyStr.eqb op "=" then match c with Eq => true | _ => false end
  else if PyStr.eqb op "!=" then match c with Eq => false | _ => true end
  else if PyStr.eqb op "<" then match c with Lt => true | _ => false end
  else if PyStr.eqb op ">" then match c with Gt => true | _ => false end
  else if PyStr.eqb op "<=" then match c with Gt => false | _ => true end
  else if PyStr.eqb op ">=" then match c with Lt => false | _ => true end
  else false.

(** The text compared in the fallback: [str(v).strip().lower()]. *)
Definition folded (v : value) : string :=
  PyStr.lower (PyStr.strip (match v with Num n => PyNum.str n | Str s => s end)).

(** ** The pieces of a query text *)

Section QueryText.
Import PyStr.

(** The pieces of the text that [parse_query] works on. *)
Definition original_of (sql : string) : string :=
  let original := strip sql in
  if endswith original ";" then strip (slice_to original (-1)) else original.

Definition has_keywords (sql : string) : bool :=
  contains "select" (lower (original_of sql))
  && contains " from " (lower (original_of sql)).

(** The select-list text: between the first [select] and the first
    [ from ]. *)
Definition select_text (sql : string) : string :=
  let original := original_of sql in
  strip (slice original (find (lower original) "select" + len "select")
                        (find (lower original) " from ")).

Definition remaining_of (sql : string) : string :=
  let original := original_of sql in
  strip (slice_from original (find (lower original) " from " + len " from ")).

(** The raw condition text, when the remainder holds [ where ]. *)
Definition where_text (sql : string) : option string :=
  let remaining := remaining_of sql in
  let where_index := find (lower remaining) " where " in
  if where_index =? -1 then None
  else Some (strip (slice_from remaining (where_index + len " where "))).

Definition table_text (sql : string) : string :=
  let remaining := remaining_of sql in
  let where_index := find (lower remaining) " where " in
  if where_index =? -1 then strip remaining
  else strip (slice_to remaining where_index).

End QueryText.

(** ** Digit texts *)

Section DigitText.
Import PyStr PyNum.

Fixpoint all_chars (P : ascii -> bool) (s : string) : bool :=
  match s with
  | EmptyString => true
  | String c r => P c && all_chars P r
  end.


End DigitText.

(** ** The tables and queries of the examples *)

(** The example of the specification, with the conditions held by a row. *)
Definition a_is (v : string) : condition := Condition "a" "=" v.
Definition row_a (v : string) : row := {[ "a" := v ]}.

(** The table of the specification's example. *)
Definition example_rows : list row :=
  [ {[ "id" := "1"; "name" := "Bob" ]}; {[ "id" := "2"; "name" := "Amy" ]} ].

Definition example_loader : loader := fun name =>
  if PyStr.eqb name "t" then Ok (example_rows, ["id"; "name"])
  else Raise (FileNotFoundError ("CSV file '" ++ name ++ "' not found.")).

(** The query of the claim at a table where no row passes the filter. *)
Definition unknown_column_query : parsed :=
  Parsed ["nosuch"] "t" (Some [Cond (Condition "id" "=" "999")])
         "SELECT nosuch FROM t WHERE id = 999".

(** ** Vocabulary of the further properties *)

(** The three-way comparison behind [compare_values]: numeric when both
    sides coerce to numbers, of the folded texts otherwise. *)
Definition three_way (left_raw right_raw : string) : comparison :=
  match try_parse_number left_raw, try_parse_number right_raw with
  | Num x, Num y => PyNum.compare x y
  | l, r => String.compare (folded l) (folded r)
  end.

(** The tokens a condition list is written with. *)
Definition tokens_of (l : list cond_item) : list string :=
  flat_map (fun i => match i with
                     | Cond c => [col c; op c; raw_val c]
                     | Logic o => [o]
                     end) l.

(** The number of rows whose normalized column [name] holds a non-empty
    trimmed value. *)
Definition non_empty_count (name : string) (rows : list row) : Z :=
  Z.of_nat (length (filter
    (fun r : row => PyStr.strip (default EmptyString (r !! normalize_colname name))
                    ≠ EmptyString) rows)).

(** A row passes the conditions: the evaluation returns a true value. *)
Definition passes (conditions : option (list cond_item)) (r : row) : Prop :=
  exists v, evaluate_conditions r conditions = Ok v /\ truthy v = true.

(** A text without the character [c]. *)
Definition free_of (c : ascii) (s : string) : bool :=
  all_chars (fun x => negb (Ascii.eqb x c)) s.

(** A plain word for the tokenizer: not empty, without whitespace, quote or
    backslash. *)
Definition plain_char (c : ascii) : bool :=
  negb (Shlex.whitespace c) && negb (Shlex.quotes c) && negb (Shlex.escape c).
Definition plain_word (s : string) : bool :=
  negb (String.eqb s EmptyString) && all_chars plain_char s.

(** A parsed query with another raw text. *)
Definition with_raw_sql (raw : string) (p : parsed) : parsed :=
  Parsed (q_select p) (q_from p) (q_where p) raw.

(** The values of a row are trimmed. *)
Definition trimmed (r : row) : Prop :=
  forall k v, r !! k = Some v -> PyStr.strip v = v.

(** The dictionary of a row of at most as many fields as the header, for a
    header without repeated name: field by field, [None] past the end of
    the row. *)
Fixpoint expected (fieldnames record : list string) : Csv.raw_row :=
  match fieldnames with
  | [] => []
  | k :: ks =>
      match record with
      | v :: vs => (Some k, Csv.Field v) :: expected ks vs
      | [] => (Some k, Csv.Missing) :: expected ks []
      end
  end.


(** A row with more fields than the header. *)
Definition long (header record : list string) : Prop :=
  (length header < length record)%nat.

(** The exception of a row with more fields than the header: its key is
    [None], which has no [strip]. *)
Definition none_has_no_strip : exn :=
  OtherError "AttributeError" "'NoneType' object has no attribute 'strip'".

(** An item of a dictionary of [DictReader] that the comprehension of the
    loader accepts: a named field, present or missing. *)
Definition named (e : option string * Csv.cell) : bool :=
  match e with
  | (Some _, Csv.Field _) | (Some _, Csv.Missing) => true
  | _ => false
  end.

(** A directory with one table file, [t.csv]: a header, a full row, a blank
    line and a short row; and one with a row that is too long. *)
Definition example_files : Csv.file_system := fun path =>
  if String.eqb path "t.csv"
  then Some ([["ID"; " Name "]; ["1"; " Ann "]; []; ["2"]], None)
  else None.
Definition long_row_files : Csv.file_system := fun path =>
  if String.eqb path "t.csv"
  then Some ([["ID"; " Name "]; ["1"; " Ann "]; ["2"; "Bob"; "x"]; ["3"]], None)
  else None.

(** The record [{'expr': e, 'count': c}] of a COUNT result. *)
Definition count_record (entry : string * Z) : Printer.record :=
  [("expr", Printer.VStr entry.1); ("count", Printer.VInt entry.2)].

(** [print_results] takes the branch of the COUNT results. *)
Definition aggregate (rows : list Printer.record) : bool :=
  forallb (fun r => Printer.has_key r "expr" && Printer.has_key r "count") rows.

(** * Properties *)

(** ** The library model on known values *)

Example shlex_split_quoted :
  Shlex.split "name = 'Al ice' AND x != \' " = Ok ["name"; "="; "Al ice"; "AND"; "x"; "!="; "'"].
Proof. reflexivity. Qed.

Example shlex_split_open_quote :
  Shlex.split "name = 'Al" = Raise (ValueError "No closing quotation")
  /\ Shlex.split "name = Al\" = Raise (ValueError "No escaped character").
Proof. split; reflexivity. Qed.

Example int_numerals :
  PyNum.int "+1_000" = Some 1000 /\ PyNum.int "-0" = Some 0
  /\ PyNum.int "1__0" = None /\ PyNum.int "12a" = None /\ PyNum.int "0x10" = None.
Proof. repeat split; reflexivity. Qed.

Example float_numerals :
  PyNum.str_float <$> PyNum.float_of_str "1.50" = Some "1.5"
  /\ PyNum.str_float <$> PyNum.float_of_str "0.1" = Some "0.1"
  /\ PyNum.str_float <$> PyNum.float_of_str "1.0e16" = Some "1e+16"
  /\ PyNum.str_float <$> PyNum.float_of_str "-.5e-5" = Some "-5e-06"
  /\ PyNum.str_float <$> PyNum.float_of_str "9007199254740993.0" = Some "9007199254740992.0"
  /\ PyNum.str_float <$> PyNum.float_of_str "1.8e308" = Some "inf"
  /\ PyNum.float_of_str "1.2.3" = None.
Proof. repeat split; vm_compute; reflexivity. Qed.

Example try_parse_number_values :
  try_parse_number " 12 " = Num (PyNum.Int 12)
  /\ try_parse_number "1.2.3" = Str "1.2.3"
  /\ try_parse_number "  " = Str EmptyString
  /\ try_parse_number "1e3" = Str "1e3".
Proof. repeat split; vm_compute; reflexivity. Qed.

Example slices :
  PyStr.slice "name" 0 (-1) = "nam" /\ PyStr.slice "COUNT(id)" 6 8 = "id"
  /\ unquote_value " 'x y' " = "x y" /\ PyStr.split "," "a,,b," = ["a"; EmptyString; "b"; EmptyString].
Proof. repeat split; reflexivity. Qed.

(** ** The error monad *)

Lemma bind_ok {A B : Type} (a : A) (k : A -> result B) :
  (Ok a ≫= k) = k a.
Proof. reflexivity. Qed.

Lemma bind_raise {A B : Type} (e : exn) (k : A -> result B) :
  (Raise e ≫= k) = Raise e.
Proof. reflexivity. Qed.

Lemma bind_ok_inv {A B : Type} (r : result A) (k : A -> result B) (b : B) :
  (r ≫= k) = Ok b -> exists a, r = Ok a /\ k a = Ok b.
Proof. destruct r as [a|e]; [eauto | discriminate]. Qed.

(** ** The filter *)

Section Filter.
Variable conditions : option (list cond_item).

(** The rows kept by the filter pass the conditions, in source order. *)
Lemma filter_rows_kept (rows filtered : list row) :
  filter_rows rows conditions = Ok filtered ->
  Forall (fun r => exists v, evaluate_conditions r conditions = Ok v /\ truthy v = true)
         filtered.
Proof.
  revert filtered; induction rows as [|r rows IH]; intros filtered H.
  - injection H as <-. constructor.
  - simpl in H.
    apply bind_ok_inv in H as (v & Hv & H).
    apply bind_ok_inv in H as (f & Hf & H).
    injection H as <-.
    specialize (IH f Hf).
    destruct (truthy v) eqn:Ht; [constructor; eauto | assumption].
Qed.

(** Rows that all pass are all kept. *)
Lemma filter_rows_all (rows : list row) :
  Forall (fun r => exists v, evaluate_conditions r conditions = Ok v /\ truthy v = true)
         rows ->
  filter_rows rows conditions = Ok rows.
Proof.
  induction 1 as [|r rows (v & Hv & Ht) _ IH]; [reflexivity|].
  simpl. rewrite Hv, IH. simpl. now rewrite Ht.
Qed.

Lemma filter_rows_idempotent (rows filtered : list row) :
  filter_rows rows conditions = Ok filtered ->
  filter_rows filtered conditions = Ok filtered.
Proof. intros H. apply filter_rows_all, (filter_rows_kept rows), H. Qed.

(** The filter raises only when the evaluation of some row does. *)
Lemma filter_rows_total (rows : list row) :
  Forall (fun r => is_ok (evaluate_conditions r conditions) = true) rows ->
  is_ok (filter_rows rows conditions) = true.
Proof.
  induction 1 as [|r rows Hr _ IH]; [reflexivity|].
  simpl. destruct (evaluate_conditions r conditions) as [v|]; [|discriminate].
  destruct (filter_rows rows conditions); [reflexivity | discriminate].
Qed.
End Filter.

(** ** The condition evaluator as a left fold *)

Lemma eval_loop_flat (r : row) (acc : bool) (prev : option string)
    (rest : list (string * condition)) :
  eval_loop r (Some acc, prev) (flat_map (fun oc => [Logic (fst oc); Cond (snd oc)]) rest)
  = (b ← fold_conditions r acc rest; Ok (Some b)).
Proof.
  revert acc prev; induction rest as [|[o c] rest IH]; intros acc prev; [reflexivity|].
  simpl. unfold cond_holds.
  destruct (Engine.getitem r (normalize_colname (col c))) as [v|e]; [|reflexivity].
  simpl. unfold combine.
  destruct (PyStr.eqb o "AND"); [apply IH|].
  destruct (PyStr.eqb o "OR"); apply IH.
Qed.

Lemma evaluate_conditions_flat (r : row) (c0 : condition) (rest : list (string * condition)) :
  evaluate_conditions r (Some (flat c0 rest))
  = (b0 ← cond_holds r c0; b ← fold_conditions r b0 rest; Ok (Some b)).
Proof.
  unfold flat, evaluate_conditions. simpl. unfold cond_holds.
  destruct (Engine.getitem r (normalize_colname (col c0))) as [v|e]; [|reflexivity].
  simpl. apply eval_loop_flat.
Qed.

(** C2: the evaluation of a condition list is a strict left fold without
    precedence.  The list [c0, o1, c1, ..., on, cn] evaluates to the fold of
    the truth values of its conditions from the left, each combined by the
    operator in front of it; so [c1 OR c2 AND c3] is [(c1 OR c2) AND c3].
    The clause [a = 1 OR a = 2 AND a = 3] parses to such a list, and on a row
    with [a = 1] it is false, where the reading [c1 OR (c2 AND c3)] would be
    true. *)
Theorem C2_conditions_left_fold :
  (forall (r : row) (c0 : condition) (rest : list (string * condition)),
      evaluate_conditions r (Some (flat c0 rest))
      = (b0 ← cond_holds r c0; b ← fold_conditions r b0 rest; Ok (Some b)))
  /\ (forall (r : row) (c1 c2 c3 : condition) (b1 b2 b3 : bool),
         cond_holds r c1 = Ok b1 -> cond_holds r c2 = Ok b2 -> cond_holds r c3 = Ok b3 ->
         evaluate_conditions r (Some [Cond c1; Logic "OR"; Cond c2; Logic "AND"; Cond c3])
         = Ok (Some ((b1 || b2) && b3)))
  /\ parse_where_clause "a = 1 OR a = 2 AND a = 3"
     = Ok [Cond (a_is "1"); Logic "OR"; Cond (a_is "2"); Logic "AND"; Cond (a_is "3")]
  /\ evaluate_conditions (row_a "1")
       (Some [Cond (a_is "1"); Logic "OR"; Cond (a_is "2"); Logic "AND"; Cond (a_is "3")])
     = Ok (Some false)
  /\ (cond_holds (row_a "1") (a_is "1") = Ok true
      /\ cond_holds (row_a "1") (a_is "2") = Ok false
      /\ cond_holds (row_a "1") (a_is "3") = Ok false
      /\ (true || (false && false)) = true).
Proof.
  split; [exact evaluate_conditions_flat|].
  split.
  - intros r c1 c2 c3 b1 b2 b3 H1 H2 H3.
    change [Cond c1; Logic "OR"; Cond c2; Logic "AND"; Cond c3]
      with (flat c1 [("OR", c2); ("AND", c3)]).
    rewrite evaluate_conditions_flat, H1. simpl. now rewrite H2, H3.
  - repeat split; vm_compute; reflexivity.
Qed.

(** ** Absent conditions, and SELECT * without WHERE *)

Lemma evaluate_conditions_absent (r : row) :
  evaluate_conditions r None = Ok (Some true)
  /\ evaluate_conditions r (Some []) = Ok (Some true).
Proof. split; reflexivity. Qed.

Lemma filter_rows_absent (rows : list row) :
  filter_rows rows None = Ok rows.
Proof.
  apply filter_rows_all, Forall_forall. intros r _. exists (Some true). now split.
Qed.

Lemma execute_select_star (load : loader) (p : parsed) (rows : list row)
    (columns : list string) :
  q_select p = ["*"] -> q_where p = None -> load (q_from p) = Ok (rows, columns) ->
  execute_query load p = Ok (Rows rows).
Proof.
  intros Hs Hw Hl. unfold execute_query.
  rewrite Hl, Hw, Hs. simpl. now rewrite filter_rows_absent.
Qed.

(** ** Facts on the [str] methods *)

Section StrFacts.
Import PyStr.

Lemma lstrip_length (s : string) :
  (String.length (lstrip s) <= String.length s)%nat.
Proof. induction s as [|c s IH]; simpl; [lia|]. destruct (isspace c); simpl; lia. Qed.

Lemma rstrip_length (s : string) :
  (String.length (rstrip s) <= String.length s)%nat.
Proof.
  induction s as [|c s IH]; simpl; [lia|].
  destruct (rstrip s); [destruct (isspace c)|]; simpl in *; lia.
Qed.

Lemma lstrip_same_length (s : string) :
  String.length (lstrip s) = String.length s -> lstrip s = s.
Proof.
  destruct s as [|c s]; simpl; [reflexivity|].
  destruct (isspace c); [|reflexivity].
  intros H. pose proof (lstrip_length s). lia.
Qed.

Lemma strip_fixed (s : string) :
  strip s = s -> lstrip s = s /\ rstrip s = s.
Proof.
  unfold strip. intros H.
  assert (lstrip s = s) as Hl.
  { apply lstrip_same_length.
    pose proof (rstrip_length (lstrip s)). pose proof (lstrip_length s).
    rewrite H in *. lia. }
  split; [assumption|]. now rewrite Hl in H.
Qed.

Lemma rstrip_app (a t : string) :
  rstrip t = t -> t <> EmptyString -> rstrip (a ++ t) = a ++ t.
Proof.
  intros Ht Hne. induction a as [|c a IH]; [assumption|].
  change (String c a ++ t) with (String c (a ++ t)).
  cbn [rstrip]. rewrite IH. destruct (a ++ t) eqn:E; [|reflexivity].
  destruct a; [destruct (Hne E) | discriminate].
Qed.

Lemma substring_all (s : string) : substring 0 (String.length s) s = s.
Proof. induction s as [|c s IH]; simpl; [reflexivity | now rewrite IH]. Qed.

Lemma length_app (a t : string) :
  String.length (a ++ t) = (String.length a + String.length t)%nat.
Proof. induction a as [|c a IH]; simpl; [reflexivity | now rewrite IH]. Qed.

Lemma slice_in_range (s : string) (i j : Z) :
  0 <= i <= j -> j <= len s ->
  slice s i j = substring (Z.to_nat i) (Z.to_nat (j - i)) s.
Proof.
  intros Hij Hj. unfold slice, clamp.
  destruct (Z.ltb_spec i 0), (Z.ltb_spec j 0); try lia.
  now rewrite !Z.min_l by lia.
Qed.

Lemma find_absent (s sub : string) :
  contains sub s = false -> find s sub = -1.
Proof. unfold contains, find. now destruct (String.index 0 sub s). Qed.

Lemma lower_app (a t : string) : lower (a ++ t) = lower a ++ lower t.
Proof.
  unfold lower. induction a as [|c a IH]; simpl; [reflexivity|]. now rewrite IH.
Qed.
End StrFacts.

(** The text [SELECT * FROM t] parses to the select list [*], the table [t]
    and no condition list, for a table name that is trimmed, not empty, has
    no final ";" and holds no [ where ]. *)
Lemma parse_select_star (t : string) :
  PyStr.strip t = t -> t <> EmptyString ->
  PyStr.endswith t ";" = false ->
  PyStr.contains " where " (PyStr.lower t) = false ->
  parse_query ("SELECT * FROM " ++ t)
  = Ok (Parsed ["*"] t None ("SELECT * FROM " ++ t)).
Proof.
  intros Hs Hne Hsemi Hw.
  destruct (strip_fixed t Hs) as [Hl Hr].
  unfold parse_query.
  assert (PyStr.strip ("SELECT * FROM " ++ t) = "SELECT * FROM " ++ t) as ->.
  { unfold PyStr.strip. change (PyStr.lstrip ("SELECT * FROM " ++ t)) with ("SELECT * FROM " ++ t).
    now apply rstrip_app. }
  assert (PyStr.endswith ("SELECT * FROM " ++ t) ";" = false) as ->.
  { cbn. exact Hsemi. }
  rewrite lower_app.
  assert (PyStr.contains "select" (PyStr.lower "SELECT * FROM " ++ PyStr.lower t) = true)
    as -> by reflexivity.
  assert (PyStr.contains " from " (PyStr.lower "SELECT * FROM " ++ PyStr.lower t) = true)
    as -> by (destruct t; reflexivity).
  assert (PyStr.find (PyStr.lower "SELECT * FROM " ++ PyStr.lower t) "select" = 0)
    as -> by reflexivity.
  assert (PyStr.find (PyStr.lower "SELECT * FROM " ++ PyStr.lower t) " from " = 8)
    as -> by (destruct t; reflexivity).
  assert (PyStr.len ("SELECT * FROM " ++ t) = 14 + PyStr.len t) as Hlen.
  { unfold PyStr.len. rewrite length_app. simpl String.length. lia. }
  assert (PyStr.slice ("SELECT * FROM " ++ t) (0 + PyStr.len "select") 8 = " *") as ->.
  { change (0 + PyStr.len "select") with 6.
    rewrite slice_in_range; [reflexivity | lia | rewrite Hlen; unfold PyStr.len; lia]. }
  assert (PyStr.slice_from ("SELECT * FROM " ++ t) (8 + PyStr.len " from ") = t) as ->.
  { unfold PyStr.slice_from. rewrite slice_in_range.
    - rewrite Hlen. change (8 + PyStr.len " from ") with 14.
      replace (14 + PyStr.len t - 14) with (PyStr.len t) by lia.
      unfold PyStr.len. rewrite Nat2Z.id.
      change (substring (Z.to_nat 14) (String.length t) ("SELECT * FROM " ++ t))
        with (substring 0 (String.length t) t).
      apply substring_all.
    - change (8 + PyStr.len " from ") with 14. rewrite Hlen. unfold PyStr.len. lia.
    - lia. }
  rewrite Hs, (find_absent _ _ Hw). simpl. now rewrite Hs.
Qed.

(** C8: the query [SELECT * FROM t] without WHERE clause returns every row
    of [t], unchanged and in source order, and absent conditions ([None] or
    the empty list) are true of every row. *)
Theorem C8_select_star_all_rows (load : loader) (t : string) (rows : list row)
    (columns : list string) :
  PyStr.strip t = t -> t <> EmptyString ->
  PyStr.endswith t ";" = false ->
  PyStr.contains " where " (PyStr.lower t) = false ->
  load t = Ok (rows, columns) ->
  (p ← parse_query ("SELECT * FROM " ++ t); execute_query load p) = Ok (Rows rows)
  /\ (forall r : row, evaluate_conditions r None = Ok (Some true)
                      /\ evaluate_conditions r (Some []) = Ok (Some true))
  /\ (forall p : parsed, q_select p = ["*"] -> q_where p = None -> q_from p = t ->
                         execute_query load p = Ok (Rows rows)).
Proof.
  intros Hs Hne Hsemi Hw Hl. split; [|split].
  - rewrite (parse_select_star t Hs Hne Hsemi Hw). simpl.
    now apply (execute_select_star load _ rows columns).
  - exact evaluate_conditions_absent.
  - intros p Hsel Hwh Hfrom. apply (execute_select_star load p rows columns); congruence.
Qed.

Lemma C8_select_star_all_rows_witness :
  (p ← parse_query "SELECT * FROM t"; execute_query example_loader p)
  = Ok (Rows example_rows).
Proof.
  apply (C8_select_star_all_rows example_loader "t" example_rows ["id"; "name"]);
    vm_compute; congruence.
Defined.

(** ** Filtering by one equality condition *)

Lemma evaluate_single (r : row) (c : condition) :
  evaluate_conditions r (Some [Cond c]) = (b ← cond_holds r c; Ok (Some b)).
Proof.
  change [Cond c] with (flat c []). rewrite evaluate_conditions_flat.
  now destruct (cond_holds r c).
Qed.

Lemma filter_rows_single (c v : string) (rows : list row) :
  Forall (fun r : row => is_Some (r !! normalize_colname c)) rows ->
  filter_rows rows (Some [Cond (Condition c "=" v)]) = Ok (List.filter (equals c v) rows).
Proof.
  induction 1 as [|r rows [x Hx] _ IH]; [reflexivity|].
  cbn [filter_rows]. rewrite evaluate_single, IH.
  unfold cond_holds, Engine.getitem, equals. cbn [col op raw_val]. rewrite Hx.
  cbn. now rewrite Hx.
Qed.

(** C9: filtering by one equality condition [{col, '=', v}] is idempotent.
    On a table whose rows all hold the column the filter returns the rows
    that pass the test, in order, and filtering that result again by the
    same condition returns it unchanged. *)
Theorem C9_equality_filter_idempotent (c v : string) (rows : list row) :
  Forall (fun r : row => is_Some (r !! normalize_colname c)) rows ->
  exists filtered : list row,
    filter_rows rows (Some [Cond (Condition c "=" v)]) = Ok filtered
    /\ filtered = List.filter (equals c v) rows
    /\ filter_rows filtered (Some [Cond (Condition c "=" v)]) = Ok filtered.
Proof.
  intros H. exists (List.filter (equals c v) rows).
  pose proof (filter_rows_single c v rows H) as Hf.
  split; [exact Hf|]. split; [reflexivity|].
  exact (filter_rows_idempotent _ _ _ Hf).
Qed.

Lemma C9_equality_filter_idempotent_witness :
  exists filtered : list row,
    filter_rows example_rows (Some [Cond (Condition "ID" "=" "'2'")]) = Ok filtered
    /\ filtered = List.filter (equals "ID" "'2'") example_rows
    /\ filter_rows filtered (Some [Cond (Condition "ID" "=" "'2'")]) = Ok filtered.
Proof.
  apply (C9_equality_filter_idempotent "ID" "'2'" example_rows).
  repeat constructor; vm_compute; eauto.
Defined.

(** ** Condition lists made of logical operators only *)

Lemma eval_loop_operators (r : row) (prev : option string) (conds : list cond_item) :
  Forall is_operator conds -> eval_loop r (None, prev) conds = Ok None.
Proof.
  intros H. revert prev. induction H as [|i conds Hi _ IH]; intros prev; [reflexivity|].
  destruct i as [c|o]; [destruct Hi|]. simpl. apply IH.
Qed.

Lemma filter_rows_none (conditions : option (list cond_item)) (rows : list row) :
  Forall (fun r => evaluate_conditions r conditions = Ok None) rows ->
  filter_rows rows conditions = Ok [].
Proof.
  induction 1 as [|r rows Hr _ IH]; [reflexivity|].
  simpl. now rewrite Hr, IH.
Qed.

(** C10: on a non-empty condition list holding logical operators only (as
    parsed from [WHERE AND]) [evaluate_conditions] returns [None] for every
    row; the filter of [execute_query] then keeps no row and no error is
    raised: the query returns no row, and in COUNT mode every count is taken
    over the empty row sequence. *)
Theorem C10_operators_only_list (conds : list cond_item) :
  conds <> [] -> Forall is_operator conds ->
  (forall r : row, evaluate_conditions r (Some conds) = Ok None)
  /\ (forall rows : list row, filter_rows rows (Some conds) = Ok [])
  /\ (forall (load : loader) (p : parsed) (rows : list row) (columns : list string),
         q_where p = Some conds -> load (q_from p) = Ok (rows, columns) ->
         execute_query load p
         = Ok (if existsb is_count (q_select p) && negb (bool_decide (q_select p = ["*"]))
               then Counts (count_entry [] <$> q_select p)
               else Rows []))
  /\ parse_query "SELECT * FROM t WHERE AND"
     = Ok (Parsed ["*"] "t" (Some [Logic "AND"]) "SELECT * FROM t WHERE AND").
Proof.
  intros Hne Hops.
  assert (forall r : row, evaluate_conditions r (Some conds) = Ok None) as Hev.
  { intros r. destruct conds as [|i conds]; [congruence|].
    apply (eval_loop_operators r None (i :: conds) Hops). }
  assert (forall rows : list row, filter_rows rows (Some conds) = Ok []) as Hfl.
  { intros rows. apply filter_rows_none, Forall_forall. intros r _. apply Hev. }
  split; [exact Hev|]. split; [exact Hfl|]. split; [|vm_compute; reflexivity].
  intros load p rows columns Hw Hl. unfold execute_query.
  rewrite Hl, Hw. cbn. rewrite Hfl. cbn.
  destruct (bool_decide (q_select p = ["*"])); [now rewrite andb_false_r|].
  rewrite andb_true_r. now destruct (existsb is_count (q_select p)).
Qed.

Lemma C10_operators_only_list_witness :
  evaluate_conditions (row_a "1") (Some [Logic "AND"; Logic "OR"]) = Ok None
  /\ filter_rows example_rows (Some [Logic "AND"; Logic "OR"]) = Ok [].
Proof.
  destruct (C10_operators_only_list [Logic "AND"; Logic "OR"]) as (H1 & H2 & _);
    [discriminate | repeat constructor |].
  split; [apply H1 | apply H2].
Defined.

(** ** COUNT mode *)

(** In COUNT mode the loop runs over every entry of the select list. *)
Lemma execute_count_mode (load : loader) (p : parsed) (rows filtered : list row)
    (columns : list string) :
  load (q_from p) = Ok (rows, columns) ->
  filter_rows rows (q_where p) = Ok filtered ->
  q_select p <> ["*"] -> existsb is_count (q_select p) = true ->
  execute_query load p = Ok (Counts (count_entry filtered <$> q_select p)).
Proof.
  intros Hl Hf Hs Hc. unfold execute_query. rewrite Hl. cbn. rewrite Hf. cbn.
  rewrite bool_decide_eq_false_2 by assumption. now rewrite Hc.
Qed.

(** C1 (on the code): with a select list made of the COUNT expression over
    all rows and of the plain column [name], the COUNT branch also runs on
    [name]: the text between the first opening and the first closing
    parenthesis is sliced from [find + 1] to [find], which is the slice
    [0:-1] when there is no parenthesis, so the result holds a second
    record, labelled [COUNT(nam)], with count 0. *)
Theorem C1_mixed_select_list_counts_plain_column :
  parse_query "SELECT COUNT(*), name FROM t"
  = Ok (Parsed ["COUNT(*)"; "name"] "t" None "SELECT COUNT(*), name FROM t")
  /\ execute_query example_loader
       (Parsed ["COUNT(*)"; "name"] "t" None "SELECT COUNT(*), name FROM t")
     = Ok (Counts [("COUNT(*)", 2); ("COUNT(nam)", 0)])
  /\ count_entry example_rows "name" = ("COUNT(nam)", 0).
Proof. repeat split; vm_compute; reflexivity. Qed.

(** ** Plain column projection *)

Lemma filter_rows_subset (conditions : option (list cond_item)) (rows filtered : list row) :
  filter_rows rows conditions = Ok filtered -> forall r, r ∈ filtered -> r ∈ rows.
Proof.
  revert filtered; induction rows as [|r0 rows IH]; intros filtered H r Hr.
  - injection H as <-. inversion Hr.
  - simpl in H.
    apply bind_ok_inv in H as (v & Hv & H).
    apply bind_ok_inv in H as (f & Hf & H).
    injection H as <-.
    destruct (truthy v).
    + apply elem_of_cons in Hr as [->|Hr]; [left | right; eauto].
    + right; eauto.
  Qed.

Lemma row_of_lookup (columns : list string) (r : row) (k : string) :
  row_of columns r -> (is_Some (r !! k) <-> k ∈ columns).
Proof.
  unfold row_of. intros H. rewrite <- elem_of_dom, H. apply elem_of_list_to_set.
Qed.

(** On a row of the table the projection raises at the first requested
    column that the table does not have. *)
Lemma project_row_unknown (columns : list string) (r : row) (sel : list string)
    (row_out : row) :
  row_of columns r ->
  (exists c, c ∈ sel /\ (normalize_colname c ∉ columns)) ->
  exists pre c post,
    sel = (pre ++ c :: post)%list
    /\ Forall (fun x => normalize_colname x ∈ columns) pre
    /\ (normalize_colname c ∉ columns)
    /\ project_row r sel row_out
       = Raise (KeyError ("Column '" ++ c ++ "' not found.")).
Proof.
  intros Hr. revert row_out. induction sel as [|c0 sel IH]; intros row_out (c & Hc & Hn).
  - inversion Hc.
  - simpl. destruct (r !! normalize_colname c0) as [v|] eqn:E.
    + assert (normalize_colname c0 ∈ columns) as Hc0.
      { apply (row_of_lookup columns r _ Hr). now rewrite E. }
      assert (c ∈ sel) as Hc'.
      { apply elem_of_cons in Hc as [->|Hc]; [contradiction | assumption]. }
      destruct (IH (<[c0:=v]> row_out)) as (pre & c' & post & -> & H1 & H2 & H3); [eauto|].
      exists (c0 :: pre), c', post. split; [reflexivity|].
      split; [now constructor|]. now split.
    + exists [], c0, sel. split; [reflexivity|]. split; [constructor|].
      split; [|reflexivity].
      intros Hin. apply (row_of_lookup columns r _ Hr) in Hin.
      rewrite E in Hin. now destruct Hin.
Qed.

(** C5, as the code has it: in plain column-projection mode (the select
    list is neither [*] nor holds a COUNT expression), when a requested
    column is absent from the table's column set and at least one row passes
    the filter, the execution raises the column-not-found error ([KeyError])
    naming the first such column of the select list; when no row passes the
    filter it returns the empty row sequence and raises nothing. *)
Theorem C5_unknown_column_projection (load : loader) (p : parsed)
    (rows filtered : list row) (columns : list string) (c : string) :
  q_select p <> ["*"] -> existsb is_count (q_select p) = false ->
  load (q_from p) = Ok (rows, columns) ->
  Forall (row_of columns) rows ->
  filter_rows rows (q_where p) = Ok filtered ->
  c ∈ q_select p -> normalize_colname c ∉ columns ->
  (filtered <> [] ->
   exists pre c' post,
     q_select p = (pre ++ c' :: post)%list
     /\ Forall (fun x => normalize_colname x ∈ columns) pre
     /\ (normalize_colname c' ∉ columns)
     /\ execute_query load p
        = Raise (KeyError ("Column '" ++ c' ++ "' not found.")))
  /\ (filtered = [] -> execute_query load p = Ok (Rows [])).
Proof.
  intros Hs Hc Hl Hrows Hf Hin Hn.
  assert (execute_query load p = (projected ← project filtered (q_select p); Ok (Rows projected)))
    as ->.
  { unfold execute_query. rewrite Hl. cbn. rewrite Hf. cbn.
    rewrite bool_decide_eq_false_2 by assumption. now rewrite Hc. }
  split.
  - intros Hne. destruct filtered as [|r filtered]; [congruence|].
    assert (row_of columns r) as Hr.
    { rewrite Forall_forall in Hrows. apply Hrows.
      apply (filter_rows_subset _ _ _ Hf). left. }
    destruct (project_row_unknown columns r (q_select p) ∅ Hr)
      as (pre & c' & post & H1 & H2 & H3 & H4); [eauto|].
    exists pre, c', post. repeat (split; [assumption|]).
    cbn [project]. now rewrite H4.
  - intros ->. reflexivity.
Qed.

Lemma C5_counterexample :
  parse_query "SELECT nosuch FROM t WHERE id = 999" = Ok unknown_column_query
  /\ q_select unknown_column_query <> ["*"]
  /\ existsb is_count (q_select unknown_column_query) = false
  /\ example_loader "t" = Ok (example_rows, ["id"; "name"])
  /\ (normalize_colname "nosuch" ∉ ["id"; "name"])
  /\ execute_query example_loader unknown_column_query = Ok (Rows []).
Proof.
  split; [vm_compute; reflexivity|].
  split; [discriminate|].
  split; [reflexivity|].
  split; [reflexivity|].
  split; [|vm_compute; reflexivity].
  vm_compute. intros H. repeat (apply elem_of_cons in H as [H|H]; [discriminate|]).
  inversion H.
Qed.

Lemma C5_unknown_column_projection_witness :
  exists pre c' post,
    ["name"; "nosuch"] = (pre ++ c' :: post)%list
    /\ Forall (fun x => normalize_colname x ∈ ["id"; "name"]) pre
    /\ (normalize_colname c' ∉ ["id"; "name"])
    /\ execute_query example_loader
         (Parsed ["name"; "nosuch"] "t" None "SELECT name, nosuch FROM t")
       = Raise (KeyError ("Column '" ++ c' ++ "' not found.")).
Proof.
  apply (C5_unknown_column_projection example_loader
           (Parsed ["name"; "nosuch"] "t" None "SELECT name, nosuch FROM t")
           example_rows example_rows ["id"; "name"] "nosuch").
  - discriminate.
  - reflexivity.
  - reflexivity.
  - repeat constructor; vm_compute; reflexivity.
  - vm_compute; reflexivity.
  - right; left.
  - vm_compute. intros H. repeat (apply elem_of_cons in H as [H|H]; [discriminate|]).
    inversion H.
  - discriminate.
Defined.

(** ** The WHERE-clause parser *)

(** The three ways a turn of the loop of [parse_where_clause] succeeds. *)
Lemma parse_conditions_ok (tokens : list string) (l : list cond_item) :
  parse_conditions tokens = Ok l ->
  (tokens = [] /\ l = [])
  \/ (exists tok rest l',
         tokens = tok :: rest /\ is_logic tok = true
         /\ parse_conditions rest = Ok l' /\ l = Logic (PyStr.upper tok) :: l')
  \/ (exists c o v rest l',
         tokens = c :: o :: v :: rest /\ is_logic c = false /\ o ∈ operators
         /\ parse_conditions rest = Ok l' /\ l = Cond (Condition c o v) :: l').
Proof.
  destruct tokens as [|tok rest]; simpl.
  - intros [= <-]. now left.
  - destruct (is_logic tok) eqn:E.
    + intros H. apply bind_ok_inv in H as (l' & H1 & [= <-]).
      right; left. now exists tok, rest, l'.
    + destruct rest as [|o [|v rest]]; try discriminate.
      destruct (bool_decide (o ∈ operators)) eqn:Eo; [|discriminate].
      intros H. apply bind_ok_inv in H as (l' & H1 & [= <-]).
      apply bool_decide_eq_true_1 in Eo.
      right; right. now exists tok, o, v, rest, l'.
Qed.

(** Induction on token lists, three tokens at a time. *)
Lemma tokens_ind (P : list string -> Prop) :
  (forall tokens, (forall rest, (length rest < length tokens)%nat -> P rest) -> P tokens) ->
  forall tokens, P tokens.
Proof.
  intros H tokens. remember (length tokens) as n eqn:E. revert tokens E.
  induction n as [n IH] using lt_wf_ind. intros tokens ->.
  apply H. intros rest Hlt. exact (IH _ Hlt rest eq_refl).
Qed.







(** ** The query parser *)

Section ParseQuery.
Import PyStr.

Lemma parse_query_unfold (sql : string) :
  parse_query sql
  = if has_keywords sql then
      match where_text sql with
      | Some where_part =>
          where_clause ← parse_where_clause where_part;
          Ok (Parsed (parse_select_list (select_text sql)) (table_text sql)
                     (Some where_clause) sql)
      | None =>
          Ok (Parsed (parse_select_list (select_text sql)) (table_text sql) None sql)
      end
    else Raise (ParseError "Query must contain SELECT and FROM clauses.").
Proof.
  unfold parse_query, has_keywords, where_text, table_text, select_text, remaining_of.
  fold (original_of sql).
  destruct (contains "select" (lower (original_of sql))); [|reflexivity].
  destruct (contains " from " (lower (original_of sql))); [|reflexivity].
  cbn [negb orb andb].
  destruct (_ =? -1); cbn [negb]; [reflexivity|].
  now destruct (parse_where_clause _).
Qed.
End ParseQuery.







(** ** The select list *)

Section Strip.
Import PyStr.

Lemma rstrip_idempotent (s : string) : rstrip (rstrip s) = rstrip s.
Proof.
  induction s as [|c s IH]; [reflexivity|]. cbn [rstrip].
  destruct (rstrip s) as [|a b] eqn:E.
  - destruct (isspace c) eqn:Ec; [reflexivity|]. cbn [rstrip]. now rewrite Ec.
  - cbn [rstrip]. cbn [rstrip] in IH. now rewrite IH.
Qed.

Lemma lstrip_idempotent (s : string) : lstrip (lstrip s) = lstrip s.
Proof.
  induction s as [|c s IH]; [reflexivity|]. simpl.
  destruct (isspace c) eqn:Ec; [assumption|]. simpl. now rewrite Ec.
Qed.

Lemma lstrip_rstrip (s : string) : lstrip s = s -> lstrip (rstrip s) = rstrip s.
Proof.
  destruct s as [|c s]; [reflexivity|]. simpl.
  destruct (isspace c) eqn:Ec.
  - intros H. pose proof (lstrip_length s) as Hlen. rewrite H in Hlen. simpl in Hlen. lia.
  - intros _. destruct (rstrip s); simpl; now rewrite Ec.
Qed.

Lemma strip_idempotent (s : string) : strip (strip s) = strip s.
Proof.
  unfold strip. rewrite (lstrip_rstrip (lstrip s) (lstrip_idempotent s)).
  apply rstrip_idempotent.
Qed.
End Strip.

(** Every entry of a parsed select list is a non-empty, trimmed text. *)
Lemma parse_select_list_entries (token : string) :
  Forall (fun e => e <> EmptyString /\ PyStr.strip e = e) (parse_select_list token).
Proof.
  unfold parse_select_list. destruct (PyStr.eqb (PyStr.strip token) "*").
  - repeat constructor; discriminate.
  - apply Forall_fmap, Forall_forall. intros e He.
    apply list_elem_of_filter in He as [He _]. simpl.
    split; [exact He | apply strip_idempotent].
Qed.

(** C3, as the code has it: for every query text accepted by the parser the
    select list is exactly [*] when the trimmed select-list text is the
    star, and otherwise it is made of the trimmed, non-empty pieces of the
    text between commas, in order.  Its entries are never empty; the list
    itself can be, and a star among other pieces is an entry like the
    others. *)
Theorem C3_select_list_shape (sql : string) (p : parsed) :
  parse_query sql = Ok p ->
  q_select p = parse_select_list (select_text sql)
  /\ (select_text sql = "*" -> q_select p = ["*"])
  /\ (select_text sql <> "*" ->
      q_select p = PyStr.strip <$> filter (fun e => PyStr.strip e <> EmptyString)
                                          (PyStr.split "," (select_text sql)))
  /\ Forall (fun e => e <> EmptyString /\ PyStr.strip e = e) (q_select p).
Proof.
  rewrite parse_query_unfold. intros H.
  assert (q_select p = parse_select_list (select_text sql)) as Hsel.
  { destruct (has_keywords sql); [|discriminate].
    destruct (where_text sql) as [w|].
    - apply bind_ok_inv in H as (wc & _ & [= <-]). reflexivity.
    - injection H as <-. reflexivity. }
  assert (PyStr.strip (select_text sql) = select_text sql) as Hstrip
    by apply strip_idempotent.
  split; [exact Hsel|]. rewrite Hsel. split; [|split].
  - intros E. rewrite E. reflexivity.
  - intros E. unfold parse_select_list. rewrite Hstrip.
    unfold PyStr.eqb. now rewrite (proj2 (String.eqb_neq _ _) E).
  - apply parse_select_list_entries.
Qed.

Lemma C3_select_list_shape_witness :
  q_select (Parsed ["*"; "name"] "t" None "SELECT *, name FROM t")
  = parse_select_list (select_text "SELECT *, name FROM t").
Proof.
  refine (proj1 (C3_select_list_shape "SELECT *, name FROM t"
                   (Parsed ["*"; "name"] "t" None "SELECT *, name FROM t") _)).
  vm_compute; reflexivity.
Defined.

Lemma C3_counterexample :
  parse_query "SELECT FROM t" = Ok (Parsed [] "t" None "SELECT FROM t")
  /\ parse_query "SELECT *, name FROM t"
     = Ok (Parsed ["*"; "name"] "t" None "SELECT *, name FROM t")
  /\ PyStr.split "," (select_text "SELECT *, name FROM t") = ["*"; " name"].
Proof. repeat split; vm_compute; reflexivity. Qed.

(** ** Comparison of values *)

Lemma fcompare_antisym (a b : PyNum.float) :
  PyNum.fcompare b a = CompOpp (PyNum.fcompare a b).
Proof.
  destruct a as [na ma ea|na], b as [nb mb eb|nb]; simpl.
  - rewrite (Z.min_comm eb ea). apply Z.compare_antisym.
  - now destruct nb.
  - now destruct na.
  - now destruct na, nb.
Qed.

Lemma number_compare_antisym (x y : PyNum.number) :
  PyNum.compare y x = CompOpp (PyNum.compare x y).
Proof.
  destruct x, y; cbn [PyNum.compare]; [apply Z.compare_antisym | apply fcompare_antisym ..].
Qed.

Lemma string_compare_refl (s : string) : String.compare s s = Eq.
Proof.
  induction s as [|c s IH]; [reflexivity|]. simpl.
  unfold Ascii.compare. now rewrite N.compare_refl.
Qed.

Lemma string_eqb_compare (a b : string) :
  String.eqb a b = match String.compare a b with Eq => true | _ => false end.
Proof.
  destruct (String.eqb_spec a b) as [->|Hne].
  - now rewrite string_compare_refl.
  - destruct (String.compare a b) eqn:E; try reflexivity.
    now apply String.compare_eq_iff in E.
Qed.

Lemma compare_values_numeric (left_raw op right_raw : string) (x y : PyNum.number) :
  try_parse_number left_raw = Num x -> try_parse_number right_raw = Num y ->
  compare_values left_raw op right_raw = holds op (PyNum.compare x y).
Proof.
  intros Hl Hr. unfold compare_values, holds. rewrite Hl, Hr.
  unfold PyNum.eqb, PyNum.ltb, PyNum.leb. rewrite (number_compare_antisym x y).
  repeat (destruct (PyStr.eqb op _); [now destruct (PyNum.compare x y)|]).
  reflexivity.
Qed.

Lemma compare_values_text (left_raw op right_raw : string) :
  (exists s, try_parse_number left_raw = Str s)
  \/ (exists s, try_parse_number right_raw = Str s) ->
  compare_values left_raw op right_raw
  = holds op (String.compare (folded (try_parse_number left_raw))
                             (folded (try_parse_number right_raw))).
Proof.
  intros H. unfold compare_values.
  set (l := try_parse_number left_raw) in *. set (r := try_parse_number right_raw) in *.
  transitivity
    (let left_s := folded l in
     let right_s := folded r in
     if PyStr.eqb op "=" then PyStr.eqb left_s right_s
     else if PyStr.eqb op "!=" then negb (PyStr.eqb left_s right_s)
     else if PyStr.eqb op "<" then PyStr.ltb left_s right_s
     else if PyStr.eqb op ">" then PyStr.ltb right_s left_s
     else if PyStr.eqb op "<=" then PyStr.leb left_s right_s
     else if PyStr.eqb op ">=" then PyStr.leb right_s left_s
     else false).
  { destruct H as [[s Hs]|[s Hs]]; rewrite Hs; [reflexivity | now destruct l]. }
  cbv zeta. unfold holds, PyStr.ltb, PyStr.leb, String.ltb, String.leb.
  pose proof (string_eqb_compare (folded l) (folded r)) as He.
  change (String.eqb (folded l) (folded r)) with (PyStr.eqb (folded l) (folded r)) in He.
  rewrite He, (String.compare_antisym (folded r) (folded l)).
  repeat (destruct (PyStr.eqb op _);
          [now destruct (String.compare (folded l) (folded r))|]).
  reflexivity.
Qed.

(** A side that fails the coercion is kept as its trimmed text. *)
Lemma try_parse_number_text (raw s : string) :
  try_parse_number raw = Str s ->
  s = PyStr.strip raw /\ folded (Str s) = PyStr.lower (PyStr.strip raw).
Proof.
  unfold try_parse_number, folded. intros H.
  assert (s = PyStr.strip raw) as ->.
  { destruct (PyStr.eqb _ _); [congruence|].
    destruct (PyStr.contains _ _).
    - destruct (PyNum.float_of_str _); congruence.
    - destruct (PyNum.int _); congruence. }
  split; [reflexivity|]. now rewrite strip_idempotent.
Qed.

(** ** Decimal numerals: [int(str(z)) = z] *)

Section Numerals.
Import PyStr PyNum.

Lemma all_chars_app (P : ascii -> bool) (s t : string) :
  all_chars P (s ++ t) = all_chars P s && all_chars P t.
Proof. induction s as [|c s IH]; simpl; [reflexivity|]. now rewrite IH, andb_assoc. Qed.


Lemma append_assoc (s t u : string) : (s ++ t) ++ u = s ++ (t ++ u).
Proof.
  induction s as [|c s IH]; [reflexivity|].
  change (String c ((s ++ t) ++ u) = String c (s ++ t ++ u)). now f_equal.
Qed.






End Numerals.

Section NumeralCoercion.
Import PyStr PyNum.









End NumeralCoercion.



(** * Further properties *)

(** ** Normalization of column names *)

Section CaseFolding.
Import PyStr.

Lemma isspace_lower_char (c : ascii) : isspace (lower_char c) = isspace c.
Proof. destruct c as [[] [] [] [] [] [] [] []]; reflexivity. Qed.


Lemma lower_char_idempotent (c : ascii) : lower_char (lower_char c) = lower_char c.
Proof. destruct c as [[] [] [] [] [] [] [] []]; reflexivity. Qed.


(** Trimming commutes with a change of letters that keeps the blanks. *)
Lemma strip_map_chars (f : ascii -> ascii) (s : string) :
  (forall c, isspace (f c) = isspace c) ->
  strip (map_chars f s) = map_chars f (strip s).
Proof.
  intros Hf. unfold strip.
  assert (forall u, lstrip (map_chars f u) = map_chars f (lstrip u)) as Hl.
  { induction u as [|c u IH]; [reflexivity|]. simpl. rewrite Hf.
    now destruct (isspace c). }
  assert (forall u, rstrip (map_chars f u) = map_chars f (rstrip u)) as Hr.
  { induction u as [|c u IH]; [reflexivity|]. simpl. rewrite IH, Hf.
    destruct (rstrip u); [now destruct (isspace c) | reflexivity]. }
  now rewrite Hl, Hr.
Qed.

Lemma map_chars_compose (f g : ascii -> ascii) (s : string) :
  map_chars f (map_chars g s) = map_chars (fun c => f (g c)) s.
Proof. induction s as [|c s IH]; simpl; [reflexivity | now rewrite IH]. Qed.

Lemma map_chars_ext (f g : ascii -> ascii) (s : string) :
  (forall c, f c = g c) -> map_chars f s = map_chars g s.
Proof. intros H. induction s as [|c s IH]; simpl; [reflexivity | now rewrite H, IH]. Qed.

Lemma lower_idempotent (s : string) : lower (lower s) = lower s.
Proof.
  unfold lower. rewrite map_chars_compose. apply map_chars_ext, lower_char_idempotent.
Qed.


Lemma strip_lower (s : string) : strip (lower s) = lower (strip s).
Proof. apply strip_map_chars, isspace_lower_char. Qed.

End CaseFolding.

Lemma normalize_colname_idempotent (c : string) :
  normalize_colname (normalize_colname c) = normalize_colname c.
Proof.
  unfold normalize_colname. now rewrite strip_lower, strip_idempotent, lower_idempotent.
Qed.


(** ** Unquoting a literal *)

Section Unquote.
Import PyStr.

Lemma get_app_last (s : string) (c : ascii) :
  String.get (String.length s) (s ++ String c EmptyString) = Some c.
Proof. induction s as [|a s IH]; [reflexivity | exact IH]. Qed.

Lemma substring_app_prefix (s t : string) :
  substring 0 (String.length s) (s ++ t) = s.
Proof.
  induction s as [|a s IH]; [now destruct t|].
  change (String a (substring 0 (String.length s) (s ++ t)) = String a s). now rewrite IH.
Qed.

Lemma length_snoc (s : string) (c : ascii) :
  String.length (s ++ String c EmptyString) = S (String.length s).
Proof. rewrite length_app. simpl. lia. Qed.
End Unquote.

(** X2: a literal between single quotes is unquoted to the text between
    them, whatever that text is (blanks at its ends and inner quotes are
    kept, one pair of quotes only is removed); and trimming the token first
    changes nothing. *)
Theorem unquote_value_quoted (s : string) :
  unquote_value (String "'" (s ++ "'")) = s
  /\ forall token, unquote_value (PyStr.strip token) = unquote_value token.
Proof.
  split.
  - unfold unquote_value.
    assert (PyStr.strip (String "'" (s ++ "'")) = String "'" (s ++ "'")) as ->.
    { unfold PyStr.strip. change (PyStr.lstrip (String "'" (s ++ "'")))
        with (String "'" s ++ "'"). now apply rstrip_app. }
    assert (PyStr.len (String "'" (s ++ "'")) = 2 + Z.of_nat (String.length s)) as Hlen.
    { unfold PyStr.len. cbn [String.length]. rewrite length_snoc. lia. }
    assert (PyStr.getitem (String "'" (s ++ "'")) (-1) = Some "'"%char) as Hlast.
    { unfold PyStr.getitem. rewrite Hlen. cbn [Z.ltb Z.compare].
      destruct (Z.ltb_spec (-1 + (2 + Z.of_nat (String.length s))) 0) as [H|H]; [lia|].
      replace (Z.to_nat (-1 + (2 + Z.of_nat (String.length s))))
        with (S (String.length s)) by lia.
      cbn [String.get]. apply get_app_last. }
    rewrite Hlast. change (PyStr.getitem (String "'" (s ++ "'")) 0) with (Some "'"%char).
    rewrite !bool_decide_eq_true_2 by reflexivity.
    replace (2 <=? PyStr.len (String "'" (s ++ "'"))) with true
      by (symmetry; apply Z.leb_le; lia).
    cbn [andb]. unfold PyStr.slice, PyStr.clamp. rewrite Hlen. cbn [Z.ltb Z.compare].
    rewrite Z.min_l, Z.max_r by lia.
    replace (Z.to_nat (-1 + (2 + Z.of_nat (String.length s)) - 1))
      with (String.length s) by lia.
    change (Z.to_nat 1) with 1%nat. cbn [substring]. apply substring_app_prefix.
  - intros token. unfold unquote_value. now rewrite strip_idempotent.
Qed.

(** ** The six operators of [compare_values] *)

Lemma compare_values_three_way (left_raw op right_raw : string) :
  compare_values left_raw op right_raw = holds op (three_way left_raw right_raw).
Proof.
  unfold three_way.
  destruct (try_parse_number left_raw) as [x|s] eqn:El.
  - destruct (try_parse_number right_raw) as [y|t] eqn:Er.
    + now apply compare_values_numeric.
    + rewrite compare_values_text by (right; eauto). now rewrite El, Er.
  - rewrite compare_values_text by (left; eauto). now rewrite El.
Qed.

Lemma three_way_antisym (l r : string) :
  three_way r l = CompOpp (three_way l r).
Proof.
  unfold three_way.
  destruct (try_parse_number l) as [x|s], (try_parse_number r) as [y|t];
    [apply number_compare_antisym | apply String.compare_antisym ..].
Qed.

(** X3: between any two values exactly one of "<", "=" and ">" holds; "!="
    is the negation of "=", "<=" of ">" and ">=" of "<"; "a < b" is "b > a";
    and an operator outside the six never holds. *)
Theorem compare_values_trichotomy (a b : string) :
  (compare_values a "<" b = true /\ compare_values a "=" b = false
     /\ compare_values a ">" b = false
   \/ compare_values a "<" b = false /\ compare_values a "=" b = true
     /\ compare_values a ">" b = false
   \/ compare_values a "<" b = false /\ compare_values a "=" b = false
     /\ compare_values a ">" b = true)
  /\ compare_values a "!=" b = negb (compare_values a "=" b)
  /\ compare_values a "<=" b = negb (compare_values a ">" b)
  /\ compare_values a ">=" b = negb (compare_values a "<" b)
  /\ compare_values a "<" b = compare_values b ">" a
  /\ compare_values a "<=" b = compare_values b ">=" a
  /\ compare_values a "=" b = compare_values b "=" a
  /\ forall op, op ∉ operators -> compare_values a op b = false.
Proof.
  rewrite !compare_values_three_way, (three_way_antisym a b).
  split; [|split; [|split; [|split; [|split; [|split; [|split]]]]]];
    try (destruct (three_way a b); cbn; tauto).
  intros op Hop. rewrite compare_values_three_way. unfold holds, PyStr.eqb.
  repeat match goal with
  | |- context [String.eqb op ?s] =>
      destruct (String.eqb_spec op s) as [->|_];
      [exfalso; apply Hop; unfold operators; set_solver|]
  end.
  reflexivity.
Qed.

(** X4: on two texts that are not numbers, "=" holds exactly when the texts
    are equal up to the case of the letters and to blanks at their ends. *)
Theorem compare_values_text_equality (a b : string) :
  (exists s, try_parse_number a = Str s) -> (exists s, try_parse_number b = Str s) ->
  (compare_values a "=" b = true
   <-> PyStr.lower (PyStr.strip a) = PyStr.lower (PyStr.strip b)).
Proof.
  intros [s Hs] [t Ht].
  rewrite compare_values_text by (left; eauto). rewrite Hs, Ht.
  rewrite (proj2 (try_parse_number_text a s Hs)), (proj2 (try_parse_number_text b t Ht)).
  change (holds "=" ?c) with (match c with Eq => true | _ => false end).
  rewrite <- string_eqb_compare. apply String.eqb_eq.
Qed.

Lemma compare_values_text_equality_witness :
  compare_values "  Alice" "=" "aLICE " = true
  <-> PyStr.lower (PyStr.strip "  Alice") = PyStr.lower (PyStr.strip "aLICE ").
Proof.
  apply compare_values_text_equality; [exists "Alice" | exists "aLICE"]; reflexivity.
Defined.

(** ** The loop of [evaluate_conditions] *)

Lemma evaluate_conditions_loop (r : row) (conds : list cond_item) :
  conds <> [] -> evaluate_conditions r (Some conds) = eval_loop r (None, None) conds.
Proof. now destruct conds. Qed.

(** Once a condition has been evaluated the result is a truth value. *)
Lemma eval_loop_seeded (r : row) (conds : list cond_item) :
  forall (b : bool) (prev : option string) (v : option bool),
    eval_loop r (Some b, prev) conds = Ok v -> v <> None.
Proof.
  induction conds as [|i conds IH]; intros b prev v; simpl.
  - now intros [= <-].
  - intros H. apply bind_ok_inv in H as ([res prev'] & Hs & H).
    destruct i as [c|o]; simpl in Hs.
    + apply bind_ok_inv in Hs as (x & _ & Hs).
      destruct prev as [o|]; [|discriminate].
      destruct (PyStr.eqb o "AND"); [injection Hs as <- <-; eauto|].
      destruct (PyStr.eqb o "OR"); injection Hs as <- <-; eauto.
    + injection Hs as <- <-. eauto.
Qed.

Lemma eval_loop_none (r : row) (conds : list cond_item) :
  forall (prev : option string) (v : option bool),
    eval_loop r (None, prev) conds = Ok v ->
    (v = None <-> Forall is_operator conds).
Proof.
  induction conds as [|i conds IH]; intros prev v; simpl.
  - intros [= <-]. split; [constructor | reflexivity].
  - intros H. apply bind_ok_inv in H as ([res prev'] & Hs & H).
    destruct i as [c|o]; simpl in Hs.
    + apply bind_ok_inv in Hs as (x & _ & [= <- <-]).
      split; [intros ->; now apply eval_loop_seeded in H|].
      intros HF. inversion HF as [|? ? Hc _]. destruct Hc.
    + injection Hs as <- <-. rewrite (IH _ _ H).
      split; [now constructor | now inversion 1].
Qed.

(** X5: when the evaluation of a condition list returns, its value is
    [None] exactly when the list is not empty and holds logical operators
    only; with at least one condition it is a truth value. *)
Theorem evaluate_conditions_none_iff (r : row) (conds : list cond_item)
    (v : option bool) :
  evaluate_conditions r (Some conds) = Ok v ->
  (v = None <-> conds <> [] /\ Forall is_operator conds).
Proof.
  destruct conds as [|i conds].
  - intros [= <-]. split; [discriminate | now intros [[] _]].
  - intros H. rewrite evaluate_conditions_loop in H by discriminate.
    rewrite (eval_loop_none r (i :: conds) None v H). intuition discriminate.
Qed.

Lemma evaluate_conditions_none_iff_witness :
  Some true = None
  <-> [Logic "AND"; Cond (a_is "1")] <> [] /\ Forall is_operator [Logic "AND"; Cond (a_is "1")].
Proof.
  apply (evaluate_conditions_none_iff (row_a "1")). vm_compute; reflexivity.
Defined.

(** X6: two conditions that follow each other at the head of the list, with
    no operator in between, make the evaluation raise [UnboundLocalError]
    on every row that holds both columns: the second condition reads
    [prev_op] before any operator has been stored. *)
Theorem evaluate_conditions_adjacent (r : row) (c1 c2 : condition)
    (rest : list cond_item) :
  is_Some (r !! normalize_colname (col c1)) ->
  is_Some (r !! normalize_colname (col c2)) ->
  evaluate_conditions r (Some (Cond c1 :: Cond c2 :: rest))
  = Raise (UnboundLocalError "prev_op").
Proof.
  intros [x1 H1] [x2 H2]. unfold evaluate_conditions. cbn [eval_loop eval_step].
  unfold Engine.getitem. rewrite H1. cbn [mbind result_bind].
  unfold eval_step, Engine.getitem. now rewrite H2.
Qed.

Lemma evaluate_conditions_adjacent_witness :
  parse_where_clause "a = 1 a = 2" = Ok [Cond (a_is "1"); Cond (a_is "2")]
  /\ evaluate_conditions (row_a "1") (Some [Cond (a_is "1"); Cond (a_is "2")])
     = Raise (UnboundLocalError "prev_op").
Proof.
  split; [reflexivity|].
  apply evaluate_conditions_adjacent; vm_compute; eauto.
Defined.

Lemma eval_loop_missing (r : row) (c : condition) (conds : list cond_item) :
  r !! normalize_colname (col c) = None -> Cond c ∈ conds ->
  forall st, exists e, eval_loop r st conds = Raise e.
Proof.
  intros Hc. induction conds as [|i conds IH]; intros Hin st; [inversion Hin|].
  cbn [eval_loop]. destruct (eval_step r st i) as [st'|e] eqn:Es; [|eauto].
  apply elem_of_cons in Hin as [<-|Hin]; [|exact (IH Hin st')].
  destruct st as [res prev]. cbn in Es. unfold Engine.getitem in Es.
  rewrite Hc in Es. discriminate.
Qed.

(** X7: the evaluation never short-circuits: a condition on a column that
    the row does not hold makes the evaluation raise wherever the condition
    stands in the list, also after an OR whose left side is already true. *)
Theorem evaluate_conditions_no_short_circuit (r : row) (c : condition)
    (conds : list cond_item) :
  r !! normalize_colname (col c) = None -> Cond c ∈ conds ->
  exists e, evaluate_conditions r (Some conds) = Raise e.
Proof.
  intros Hc Hin. rewrite evaluate_conditions_loop by (intros ->; inversion Hin).
  now apply (eval_loop_missing r c).
Qed.

Lemma evaluate_conditions_no_short_circuit_witness :
  cond_holds (row_a "1") (a_is "1") = Ok true
  /\ exists e, evaluate_conditions (row_a "1")
                 (Some [Cond (a_is "1"); Logic "OR"; Cond (Condition "b" "=" "2")])
               = Raise e.
Proof.
  split; [reflexivity|].
  apply (evaluate_conditions_no_short_circuit _ (Condition "b" "=" "2"));
    [reflexivity | set_solver].
Defined.

Lemma eval_loop_trailing (r : row) (o : string) (conds : list cond_item) :
  forall st, eval_loop r st (conds ++ [Logic o])%list = eval_loop r st conds.
Proof.
  induction conds as [|i conds IH]; intros st; [now destruct st|].
  cbn [eval_loop app]. destruct (eval_step r st i) as [st'|e]; [apply IH | reflexivity].
Qed.

Lemma eval_loop_repeated (r : row) (o1 o2 : string) (pre post : list cond_item) :
  forall st,
    eval_loop r st (pre ++ Logic o1 :: Logic o2 :: post)%list
    = eval_loop r st (pre ++ Logic o2 :: post)%list.
Proof.
  induction pre as [|i pre IH]; intros st; [now destruct st|].
  cbn [eval_loop app]. destruct (eval_step r st i) as [st'|e]; [apply IH | reflexivity].
Qed.

(** X8: an operator at the end of a non-empty list is ignored, and of
    operators that follow each other only the last one counts. *)
Theorem evaluate_conditions_spare_operators (r : row) (o1 o2 : string)
    (pre post : list cond_item) :
  (pre <> [] ->
   evaluate_conditions r (Some (pre ++ [Logic o1])%list) = evaluate_conditions r (Some pre))
  /\ evaluate_conditions r (Some (pre ++ Logic o1 :: Logic o2 :: post)%list)
     = evaluate_conditions r (Some (pre ++ Logic o2 :: post)%list).
Proof.
  split.
  - intros Hne. rewrite !evaluate_conditions_loop; [apply eval_loop_trailing | assumption |].
    now destruct pre.
  - rewrite !evaluate_conditions_loop by now destruct pre.
    apply eval_loop_repeated.
Qed.

(** ** The filter of [execute_query] *)

Lemma filter_rows_length (conditions : option (list cond_item))
    (rows filtered : list row) :
  filter_rows rows conditions = Ok filtered -> (length filtered <= length rows)%nat.
Proof.
  revert filtered. induction rows as [|r rows IH]; intros filtered H.
  - injection H as <-. reflexivity.
  - simpl in H.
    apply bind_ok_inv in H as (v & Hv & H).
    apply bind_ok_inv in H as (f & Hf & [= <-]).
    specialize (IH f Hf). destruct (truthy v); cbn [length]; lia.
Qed.

(** X9: the filter neither reorders, repeats nor invents rows: its result is
    a sublist of the table, every kept row passes the conditions, and every
    row of the table that was not kept evaluated to a false value. *)
Theorem filter_rows_sublist (conditions : option (list cond_item))
    (rows filtered : list row) :
  filter_rows rows conditions = Ok filtered ->
  filtered `sublist_of` rows
  /\ Forall (passes conditions) filtered
  /\ Forall (fun r => r ∈ filtered
                      \/ exists v, evaluate_conditions r conditions = Ok v
                                   /\ truthy v = false) rows.
Proof.
  intros H. split; [|split; [exact (filter_rows_kept conditions rows filtered H)|]].
  - revert filtered H. induction rows as [|r rows IH]; intros filtered H.
    + injection H as <-. constructor.
    + simpl in H.
      apply bind_ok_inv in H as (v & Hv & H).
      apply bind_ok_inv in H as (f & Hf & [= <-]).
      destruct (truthy v); [apply sublist_skip | apply sublist_cons]; auto.
  - revert filtered H. induction rows as [|r rows IH]; intros filtered H; [constructor|].
    simpl in H.
    apply bind_ok_inv in H as (v & Hv & H).
    apply bind_ok_inv in H as (f & Hf & [= <-]).
    specialize (IH f Hf). constructor.
    + destruct (truthy v) eqn:Ht; [left; left | right; eauto].
    + eapply Forall_impl; [exact IH|]. intros r' [Hin|Hev]; [left | now right].
      destruct (truthy v); [now right | assumption].
Qed.

Lemma filter_rows_sublist_witness :
  [ ({[ "id" := "2"; "name" := "Amy" ]} : row) ] `sublist_of` example_rows.
Proof.
  apply (filter_rows_sublist (Some [Cond (Condition "id" ">" "1")]) example_rows).
  vm_compute; reflexivity.
Defined.

(** ** COUNT mode *)

Lemma count_entry_bounds (filtered : list row) (s : string) :
  0 <= snd (count_entry filtered s) <= Z.of_nat (length filtered).
Proof.
  unfold count_entry. destruct (PyStr.eqb _ "*"); cbn [snd]; [lia|].
  split; [lia|]. apply inj_le, length_filter.
Qed.

(** X10: in COUNT mode the result holds one record for each entry of the
    select list, in order, and every count lies between 0 and the number of
    rows that passed the filter, itself at most the number of rows of the
    table. *)
Theorem execute_count_bounds (load : loader) (p : parsed) (rows filtered : list row)
    (columns : list string) :
  load (q_from p) = Ok (rows, columns) ->
  filter_rows rows (q_where p) = Ok filtered ->
  q_select p <> ["*"] -> existsb is_count (q_select p) = true ->
  exists results,
    execute_query load p = Ok (Counts results)
    /\ length results = length (q_select p)
    /\ Forall (fun e => 0 <= snd e <= Z.of_nat (length filtered)) results
    /\ (length filtered <= length rows)%nat.
Proof.
  intros Hl Hf Hs Hc. exists (count_entry filtered <$> q_select p).
  split; [now apply (execute_count_mode load p rows filtered columns)|].
  split; [apply length_fmap|]. split.
  - apply Forall_fmap, Forall_forall. intros s _. apply count_entry_bounds.
  - exact (filter_rows_length _ _ _ Hf).
Qed.

Lemma execute_count_bounds_witness :
  exists results,
    execute_query example_loader
      (Parsed ["count(id)"; "COUNT(*)"] "t" (Some [Cond (Condition "id" ">" "1")])
              "SELECT count(id), COUNT(*) FROM t WHERE id > 1")
    = Ok (Counts results)
    /\ length results = 2%nat
    /\ Forall (fun e => 0 <= snd e <= 1) results
    /\ (1 <= 2)%nat.
Proof.
  apply (execute_count_bounds example_loader
           (Parsed ["count(id)"; "COUNT(*)"] "t" (Some [Cond (Condition "id" ">" "1")])
                   "SELECT count(id), COUNT(*) FROM t WHERE id > 1")
           example_rows [ {[ "id" := "2"; "name" := "Amy" ]} ] ["id"; "name"]);
    try reflexivity; discriminate.
Defined.

Section Find.
Import PyStr.

Lemma prefix_empty (s : string) : String.prefix EmptyString s = true.
Proof. now destruct s. Qed.

(** The first occurrence of a character that the text in front lacks. *)
Lemma index_first (c : ascii) (a rest : string) :
  free_of c a = true ->
  String.index 0 (String c EmptyString) (a ++ String c rest) = Some (String.length a).
Proof.
  unfold free_of. induction a as [|x a IH]; intros H.
  - change (EmptyString ++ String c rest) with (String c rest).
    cbn [String.index String.prefix]. destruct (ascii_dec c c); [|congruence].
    now rewrite prefix_empty.
  - simpl in H. apply andb_true_iff in H as [Hx Ha].
    apply negb_true_iff in Hx. apply Ascii.eqb_neq in Hx.
    change (String x a ++ String c rest) with (String x (a ++ String c rest)).
    cbn [String.index String.prefix].
    destruct (ascii_dec c x) as [->|_]; [congruence|]. now rewrite (IH Ha).
Qed.

Lemma find_first (c : ascii) (a rest : string) :
  free_of c a = true -> find (a ++ String c rest) (String c EmptyString) = len a.
Proof. intros H. unfold find. now rewrite index_first. Qed.

Lemma substring_skip (a t : string) (n m : nat) :
  substring (String.length a + n) m (a ++ t) = substring n m t.
Proof. induction a as [|x a IH]; [reflexivity | exact IH]. Qed.

(** The text between two pieces of a text. *)
Lemma slice_middle (a b c : string) :
  slice (a ++ b ++ c) (len a) (len a + len b) = b.
Proof.
  rewrite slice_in_range.
  - unfold len. rewrite Nat2Z.id.
    replace (Z.to_nat (Z.of_nat (String.length a) + Z.of_nat (String.length b)
                       - Z.of_nat (String.length a)))
      with (String.length b) by lia.
    rewrite <- (Nat.add_0_r (String.length a)), substring_skip.
    apply substring_app_prefix.
  - unfold len. lia.
  - unfold len. rewrite !length_app. lia.
Qed.

Lemma free_of_app (c : ascii) (a b : string) :
  free_of c (a ++ b) = free_of c a && free_of c b.
Proof. apply all_chars_app. Qed.
End Find.

(** X11: on an entry [kw(name)] of the select list ([kw] without
    parenthesis, [name] without closing parenthesis) the COUNT branch counts
    all the filtered rows when the trimmed [name] is the star, and otherwise
    the filtered rows whose normalized column [name] holds a non-empty
    trimmed value; the label is written with COUNT in upper case and the
    trimmed name.  A column that no row holds counts 0: no error is
    raised. *)
Theorem count_entry_expression (filtered : list row) (kw name : string) :
  free_of "(" kw = true -> free_of ")" kw = true -> free_of ")" name = true ->
  count_entry filtered (kw ++ "(" ++ name ++ ")")
  = (if PyStr.eqb (PyStr.strip name) "*"
     then ("COUNT(*)", Z.of_nat (length filtered))
     else ("COUNT(" ++ PyStr.strip name ++ ")",
           non_empty_count (PyStr.strip name) filtered))
  /\ (Forall (fun r : row => r !! normalize_colname (PyStr.strip name) = None) filtered ->
      non_empty_count (PyStr.strip name) filtered = 0).
Proof.
  intros H1 H2 H3. split.
  - unfold count_entry.
    change (PyStr.find (kw ++ "(" ++ name ++ ")") "(")
      with (PyStr.find (kw ++ String "(" (name ++ ")")) "(").
    rewrite (find_first "(" kw (name ++ ")") H1).
    assert (PyStr.find (kw ++ "(" ++ name ++ ")") ")"
            = PyStr.len kw + 1 + PyStr.len name) as ->.
    { replace (kw ++ "(" ++ name ++ ")") with ((kw ++ "(" ++ name) ++ ")")
        by (now rewrite !append_assoc).
      rewrite find_first.
      - unfold PyStr.len. rewrite !length_app. cbn [String.length]. lia.
      - rewrite !free_of_app, H2, H3. reflexivity. }
    assert (PyStr.slice (kw ++ "(" ++ name ++ ")") (PyStr.len kw + 1)
                        (PyStr.len kw + 1 + PyStr.len name) = name) as ->.
    { replace (kw ++ "(" ++ name ++ ")") with ((kw ++ "(") ++ name ++ ")")
        by (now rewrite !append_assoc).
      replace (PyStr.len kw + 1) with (PyStr.len (kw ++ "("))
        by (unfold PyStr.len; rewrite length_app; cbn [String.length]; lia).
      apply slice_middle. }
    reflexivity.
  - intros Hnone. unfold non_empty_count.
    replace (filter _ filtered) with (@nil row); [reflexivity|].
    symmetry. induction Hnone as [|r l Hr _ IH]; [reflexivity|].
    rewrite filter_cons_False; [exact IH|]. rewrite Hr. cbn. auto.
Qed.

Lemma count_entry_expression_witness :
  count_entry example_rows ("count" ++ "(" ++ " Nosuch " ++ ")")
  = ("COUNT(Nosuch)", non_empty_count "Nosuch" example_rows)
  /\ non_empty_count "Nosuch" example_rows = 0.
Proof.
  split.
  - refine (proj1 (count_entry_expression example_rows "count" " Nosuch " _ _ _));
      reflexivity.
  - refine (proj2 (count_entry_expression example_rows "count" " Nosuch " _ _ _) _);
      try reflexivity.
    repeat constructor.
Defined.

(** ** Plain column projection on known columns *)

Lemma project_row_known (r : row) (sel : list string) :
  Forall (fun c => is_Some (r !! normalize_colname c)) sel ->
  forall row_out : row,
  exists out : row,
    project_row r sel row_out = Ok out
    /\ (forall c, c ∈ sel -> out !! c = r !! normalize_colname c)
    /\ (forall k, k ∉ sel -> out !! k = row_out !! k).
Proof.
  induction 1 as [|c sel [v Hv] _ IH]; intros row_out.
  - exists row_out. split; [reflexivity|]. split; [intros c Hc; inversion Hc | auto].
  - destruct (IH (<[c:=v]> row_out)) as (out & Hp & Hin & Hout).
    exists out. cbn [project_row]. rewrite Hv. split; [exact Hp|]. split.
    + intros c' Hc'. destruct (decide (c' ∈ sel)) as [Hs|Hs]; [now apply Hin|].
      apply elem_of_cons in Hc' as [->|Hc']; [|contradiction].
      rewrite (Hout c Hs), lookup_insert_eq. now rewrite Hv.
    + intros k Hk. apply not_elem_of_cons in Hk as [Hkc Hks].
      rewrite (Hout k Hks). now apply lookup_insert_ne.
Qed.

Lemma project_known (columns sel : list string) (filtered : list row) :
  Forall (row_of columns) filtered ->
  Forall (fun c => normalize_colname c ∈ columns) sel ->
  exists out : list row,
    project filtered sel = Ok out
    /\ Forall2 (fun (r o : row) =>
                  (forall c, c ∈ sel -> o !! c = r !! normalize_colname c)
                  /\ (forall k, k ∉ sel -> o !! k = None))
               filtered out.
Proof.
  intros Hrows Hsel. induction Hrows as [|r filtered Hr _ (out & Hp & Hall)].
  - exists []. split; [reflexivity | constructor].
  - destruct (project_row_known r sel) with (row_out := (∅ : row))
      as (o & Ho & Hin & Hout).
    { eapply Forall_impl; [exact Hsel|]. intros c Hc.
      now apply (row_of_lookup columns r). }
    exists (o :: out). cbn [project]. rewrite Ho, Hp. split; [reflexivity|].
    constructor; [|exact Hall]. split; [exact Hin|].
    intros k Hk. now rewrite (Hout k Hk).
Qed.

(** X12: in plain column-projection mode on a table whose rows hold the
    table's columns, when every requested column is a column of the table
    the execution returns one output row for each row that passed the
    filter, in the same order; an output row holds, under each requested
    spelling, the value the row has under the normalized name, and nothing
    else. *)
Theorem execute_projection (load : loader) (p : parsed) (rows filtered : list row)
    (columns : list string) :
  q_select p <> ["*"] -> existsb is_count (q_select p) = false ->
  load (q_from p) = Ok (rows, columns) ->
  Forall (row_of columns) rows ->
  filter_rows rows (q_where p) = Ok filtered ->
  Forall (fun c => normalize_colname c ∈ columns) (q_select p) ->
  exists out : list row,
    execute_query load p = Ok (Rows out)
    /\ Forall2 (fun (r o : row) =>
                  (forall c, c ∈ q_select p -> o !! c = r !! normalize_colname c)
                  /\ (forall k, k ∉ q_select p -> o !! k = None))
               filtered out.
Proof.
  intros Hs Hc Hl Hrows Hf Hsel.
  assert (Forall (row_of columns) filtered) as Hfr.
  { apply Forall_forall. intros r Hr. rewrite Forall_forall in Hrows.
    apply Hrows, (filter_rows_subset _ _ _ Hf), Hr. }
  destruct (project_known columns (q_select p) filtered Hfr Hsel) as (out & Hp & Hall).
  exists out. split; [|exact Hall].
  unfold execute_query. rewrite Hl. cbn. rewrite Hf. cbn.
  rewrite bool_decide_eq_false_2 by assumption. now rewrite Hc, Hp.
Qed.

Lemma execute_projection_witness :
  exists out : list row,
    execute_query example_loader
      (Parsed ["Name"; "ID"] "t" (Some [Cond (Condition "id" ">" "1")])
              "SELECT Name, ID FROM t WHERE id > 1")
    = Ok (Rows out)
    /\ Forall2 (fun (r o : row) =>
                  (forall c, c ∈ ["Name"; "ID"] -> o !! c = r !! normalize_colname c)
                  /\ (forall k, k ∉ ["Name"; "ID"] -> o !! k = None))
               [ {[ "id" := "2"; "name" := "Amy" ]} ] out.
Proof.
  apply (execute_projection example_loader
           (Parsed ["Name"; "ID"] "t" (Some [Cond (Condition "id" ">" "1")])
                   "SELECT Name, ID FROM t WHERE id > 1")
           example_rows [ {[ "id" := "2"; "name" := "Amy" ]} ] ["id"; "name"]).
  - discriminate.
  - reflexivity.
  - reflexivity.
  - repeat constructor; vm_compute; reflexivity.
  - vm_compute; reflexivity.
  - repeat constructor; vm_compute; set_solver.
Defined.

(** ** The scan of [parse_where_clause] and the tokens of a list *)

Lemma parse_conditions_tokens_of (l : list cond_item) :
  Forall well_formed l -> parse_conditions (tokens_of l) = Ok l.
Proof.
  induction 1 as [|i l Hi _ IH]; [reflexivity|].
  destruct i as [[c o v]|o]; cbn in Hi |- *.
  - destruct Hi as [Ho Hc]. fold (tokens_of l). rewrite Hc, IH.
    now rewrite bool_decide_eq_true_2.
  - fold (tokens_of l). rewrite IH. now destruct Hi as [-> | ->].
Qed.

Lemma parse_conditions_keeps_tokens (tokens : list string) :
  forall l, parse_conditions tokens = Ok l ->
            Forall2 (fun t t' => t' = t \/ (is_logic t = true /\ t' = PyStr.upper t))
                    tokens (tokens_of l).
Proof.
  induction tokens as [tokens IH] using tokens_ind. intros l H.
  apply parse_conditions_ok in H
    as [[-> ->] | [(tok & rest & l' & -> & Ht & Hp & ->)
                  | (c & o & v & rest & l' & -> & Hc & Ho & Hp & ->)]].
  - constructor.
  - cbn. constructor; [now right|]. apply (IH rest); [simpl; lia | exact Hp].
  - cbn. repeat (constructor; [now left|]). apply (IH rest); [simpl; lia | exact Hp].
Qed.

(** X13: the scan of the WHERE tokens loses nothing.  The tokens a
    well-formed condition list is written with are scanned back to that
    list; and the list scanned from any accepted token sequence is written
    with the same tokens, in the same order, the AND/OR tokens in upper
    case. *)
Theorem parse_conditions_round_trip :
  (forall l : list cond_item,
      Forall well_formed l -> parse_conditions (tokens_of l) = Ok l)
  /\ (forall (tokens : list string) (l : list cond_item),
         parse_conditions tokens = Ok l ->
         Forall2 (fun t t' => t' = t \/ (is_logic t = true /\ t' = PyStr.upper t))
                 tokens (tokens_of l)
         /\ length (tokens_of l) = length tokens).
Proof.
  split; [exact parse_conditions_tokens_of|].
  intros tokens l H. pose proof (parse_conditions_keeps_tokens tokens l H) as HF.
  split; [exact HF|]. symmetry. exact (Forall2_length _ _ _ HF).
Qed.

(** ** Words and quoted literals of a WHERE clause *)

Section Tokens.
Import Shlex.

(** The registers between two tokens. *)
Let fresh : lexer := Lexer Blank Blank EmptyString false.

Lemma append_empty_r (s : string) : s ++ EmptyString = s.
Proof. induction s as [|c s IH]; [reflexivity|]. change (String c (s ++ EmptyString) = String c s). now rewrite IH. Qed.

Lemma push_append (tok w : string) (y : ascii) : push tok y ++ w = tok ++ String y w.
Proof. unfold push. now rewrite append_assoc. Qed.

Lemma plain_char_inv (y : ascii) :
  plain_char y = true -> whitespace y = false /\ quotes y = false /\ escape y = false.
Proof.
  unfold plain_char. intros H. apply andb_true_iff in H as [H H3].
  apply andb_true_iff in H as [H1 H2].
  now rewrite negb_true_iff in H1, H2, H3.
Qed.

Lemma non_empty_eqb (tok : string) (q : bool) :
  tok <> EmptyString ->
  negb (String.eqb tok EmptyString) || q = true
  /\ negb q && String.eqb tok EmptyString = false.
Proof.
  intros H. apply String.eqb_neq in H. rewrite H. split; [reflexivity | apply andb_false_r].
Qed.

(** Inside a word: the plain characters up to a blank. *)
Lemma tokens_word_chars (w : string) :
  all_chars plain_char w = true ->
  forall (e : lex_state) (tok : string) (q : bool) (rest : string),
    tok <> EmptyString ->
    tokens_from (w ++ String " " rest) (Lexer Word e tok q)
    = (ts ← tokens_from rest fresh; Ok ((tok ++ w) :: ts)).
Proof.
  induction w as [|y w IH]; intros Hw e tok q rest Htok.
  - change (EmptyString ++ String " " rest) with (String " " rest).
    destruct (non_empty_eqb tok q Htok) as [H1 H2].
    cbn [tokens_from]. unfold read_char. cbn [state token quoted escapedstate].
    change (whitespace " ") with true. cbv iota. rewrite H1.
    unfold finish. cbn [state token quoted].
    rewrite H2, append_empty_r. reflexivity.
  - simpl in Hw. apply andb_true_iff in Hw as [Hy Hw].
    destruct (plain_char_inv y Hy) as (H1 & H2 & H3).
    change (String y w ++ String " " rest) with (String y (w ++ String " " rest)).
    cbn [tokens_from]. unfold read_char. cbn [state token quoted escapedstate].
    rewrite H1, H2, H3. rewrite IH; [now rewrite push_append | assumption |].
    unfold push. now destruct tok.
Qed.

(** Inside a word: the plain characters up to the end of the text. *)
Lemma tokens_word_end (w : string) :
  all_chars plain_char w = true ->
  forall (e : lex_state) (tok : string) (q : bool),
    tok <> EmptyString ->
    tokens_from w (Lexer Word e tok q) = Ok [tok ++ w].
Proof.
  induction w as [|y w IH]; intros Hw e tok q Htok.
  - destruct (non_empty_eqb tok q Htok) as [H1 H2].
    cbn [tokens_from state]. unfold finish. cbn [token quoted].
    now rewrite H2, append_empty_r.
  - simpl in Hw. apply andb_true_iff in Hw as [Hy Hw].
    destruct (plain_char_inv y Hy) as (H1 & H2 & H3).
    cbn [tokens_from]. unfold read_char. cbn [state token quoted escapedstate].
    rewrite H1, H2, H3. rewrite IH; [now rewrite push_append | assumption |].
    unfold push. now destruct tok.
Qed.

Lemma plain_word_inv (c : string) :
  plain_word c = true ->
  exists x c', c = String x c' /\ plain_char x = true /\ all_chars plain_char c' = true.
Proof.
  unfold plain_word. destruct c as [|x c']; [discriminate|]. simpl.
  intros H. apply andb_true_iff in H as [Hx Hc]. eauto.
Qed.

(** A plain word followed by a blank is the next token. *)
Lemma tokens_word (c rest : string) :
  plain_word c = true ->
  tokens_from (c ++ String " " rest) fresh
  = (ts ← tokens_from rest fresh; Ok (c :: ts)).
Proof.
  intros H. destruct (plain_word_inv c H) as (x & c' & -> & Hx & Hc').
  destruct (plain_char_inv x Hx) as (H1 & H2 & H3).
  change (String x c' ++ String " " rest) with (String x (c' ++ String " " rest)).
  unfold fresh. cbn [tokens_from]. unfold read_char. cbn [state token quoted escapedstate].
  rewrite H1, H2, H3. now rewrite tokens_word_chars.
Qed.

(** A plain word at the end of the text is the last token. *)
Lemma tokens_last_word (c : string) :
  plain_word c = true -> tokens_from c fresh = Ok [c].
Proof.
  intros H. destruct (plain_word_inv c H) as (x & c' & -> & Hx & Hc').
  destruct (plain_char_inv x Hx) as (H1 & H2 & H3).
  unfold fresh. cbn [tokens_from]. unfold read_char. cbn [state token quoted escapedstate].
  rewrite H1, H2, H3. now rewrite tokens_word_end.
Qed.

(** Between single quotes every character is kept. *)
Lemma tokens_quoted (s : string) :
  free_of "'" s = true ->
  forall (e : lex_state) (tok : string) (q : bool) (rest : string),
    tokens_from (s ++ String "'" rest) (Lexer (Quote "'") e tok q)
    = tokens_from rest (Lexer Word e (tok ++ s) true).
Proof.
  unfold free_of. induction s as [|y s IH]; intros Hs e tok q rest.
  - change (EmptyString ++ String "'" rest) with (String "'" rest).
    cbn [tokens_from]. unfold read_char. cbn [state token quoted escapedstate].
    change (Ascii.eqb "'" "'") with true. cbv iota.
    now rewrite append_empty_r.
  - simpl in Hs. apply andb_true_iff in Hs as [Hy Hs]. apply negb_true_iff in Hy.
    change (String y s ++ String "'" rest) with (String y (s ++ String "'" rest)).
    cbn [tokens_from]. unfold read_char. cbn [state token quoted escapedstate].
    rewrite Hy. change (escapedquotes "'") with false. rewrite andb_false_r.
    now rewrite IH, push_append.
Qed.

Lemma operators_plain (o : string) : o ∈ operators -> plain_word o = true.
Proof.
  unfold operators. intros H.
  repeat (apply elem_of_cons in H as [->|H]; [reflexivity|]). inversion H.
Qed.

(** The tokens of [column operator 'literal'] and of
    [column operator literal]. *)
Lemma split_condition (c o s : string) :
  plain_word c = true -> plain_word o = true ->
  (free_of "'" s = true -> split (c ++ " " ++ o ++ " '" ++ s ++ "'") = Ok [c; o; s])
  /\ (plain_word s = true -> split (c ++ " " ++ o ++ " " ++ s) = Ok [c; o; s]).
Proof.
  intros Hc Ho. unfold split. fold fresh. split; intros Hs.
  - change (c ++ " " ++ o ++ " '" ++ s ++ "'")
      with (c ++ String " " (o ++ String " " (String "'" (s ++ String "'" EmptyString)))).
    rewrite (tokens_word c _ Hc), (tokens_word o _ Ho).
    unfold fresh at 1. cbn [tokens_from]. unfold read_char.
    cbn [state token quoted escapedstate].
    change (whitespace "'") with false. change (escape "'") with false.
    change (quotes "'") with true. cbv iota.
    rewrite (tokens_quoted s Hs). reflexivity.
  - change (c ++ " " ++ o ++ " " ++ s)
      with (c ++ String " " (o ++ String " " s)).
    rewrite (tokens_word c _ Hc), (tokens_word o _ Ho), (tokens_last_word s Hs).
    reflexivity.
Qed.
End Tokens.

(** X14: a WHERE clause [column operator 'literal'] parses to the single
    condition with that column, that operator and the text between the
    quotes as its literal, whatever that text holds but a single quote
    (blanks, operators, double quotes, backslashes, the words AND and OR);
    an unquoted literal must be a plain word. *)
Theorem parse_where_clause_literal (c o s : string) :
  plain_word c = true -> is_logic c = false -> o ∈ operators ->
  (free_of "'" s = true ->
   parse_where_clause (c ++ " " ++ o ++ " '" ++ s ++ "'") = Ok [Cond (Condition c o s)])
  /\ (plain_word s = true ->
      parse_where_clause (c ++ " " ++ o ++ " " ++ s) = Ok [Cond (Condition c o s)]).
Proof.
  intros Hc Hl Ho.
  destruct (split_condition c o s Hc (operators_plain o Ho)) as [H1 H2].
  unfold parse_where_clause.
  split; intros Hs; [rewrite (H1 Hs) | rewrite (H2 Hs)];
    cbn; rewrite Hl; now rewrite bool_decide_eq_true_2.
Qed.

Lemma parse_where_clause_literal_witness :
  parse_where_clause ("name" ++ " " ++ "!=" ++ " '" ++ "O\Neil AND <= x" ++ "'")
  = Ok [Cond (Condition "name" "!=" "O\Neil AND <= x")].
Proof.
  refine (proj1 (parse_where_clause_literal "name" "!=" "O\Neil AND <= x" _ _ _) _);
    try reflexivity.
  unfold operators. set_solver.
Defined.

(** ** The select list and the names it is written with *)

Section SelectList.
Import PyStr.

Lemma split_free (a : string) :
  free_of "," a = true -> split "," a = [a].
Proof.
  unfold free_of. induction a as [|x a IH]; [reflexivity|]. simpl.
  intros H. apply andb_true_iff in H as [Hx Ha]. apply negb_true_iff in Hx.
  now rewrite Hx, (IH Ha).
Qed.

Lemma split_app (a rest : string) :
  free_of "," a = true -> split "," (a ++ String "," rest) = a :: split "," rest.
Proof.
  unfold free_of. induction a as [|x a IH]; [reflexivity|]. simpl.
  intros H. apply andb_true_iff in H as [Hx Ha]. apply negb_true_iff in Hx.
  change (String x a ++ String "," rest) with (String x (a ++ String "," rest)).
  cbn [split]. now rewrite Hx, (IH Ha).
Qed.

Lemma join_cons (sep n m : string) (rest : list string) :
  Printer.join sep (n :: m :: rest) = n ++ sep ++ Printer.join sep (m :: rest).
Proof. reflexivity. Qed.

Lemma split_join (names : list string) :
  Forall (fun n => free_of "," n = true) names ->
  split "," (Printer.join ", " names)
  = match names with
    | [] => [EmptyString]
    | n :: rest => n :: (String " " <$> rest)
    end.
Proof.
  induction 1 as [|n names Hn Hrest IH]; [reflexivity|].
  destruct names as [|m names]; [now apply split_free|].
  rewrite join_cons.
  change (n ++ ", " ++ Printer.join ", " (m :: names))
    with (n ++ String "," (String " " (Printer.join ", " (m :: names)))).
  rewrite (split_app n _ Hn). cbn [split]. change (Ascii.eqb " " ",") with false.
  cbv iota. now rewrite IH.
Qed.

Lemma lstrip_app (n x : string) :
  lstrip n = n -> n <> EmptyString -> lstrip (n ++ x) = n ++ x.
Proof.
  destruct n as [|c n]; [congruence|]. intros H _. simpl in H |- *.
  destruct (isspace c); [|reflexivity].
  pose proof (lstrip_length n) as Hlen. rewrite H in Hlen. simpl in Hlen. lia.
Qed.

Lemma append_non_empty (a b : string) : a <> EmptyString -> a ++ b <> EmptyString.
Proof. destruct a; [congruence | discriminate]. Qed.

(** The joined names are trimmed. *)
Lemma join_trimmed (names : list string) :
  Forall (fun n => n <> EmptyString /\ strip n = n) names -> names <> [] ->
  lstrip (Printer.join ", " names) = Printer.join ", " names
  /\ rstrip (Printer.join ", " names) = Printer.join ", " names
  /\ Printer.join ", " names <> EmptyString.
Proof.
  induction 1 as [|n names [Hne Hs] _ IH]; [congruence|]. intros _.
  destruct (strip_fixed n Hs) as [Hl Hr].
  destruct names as [|m names]; [now repeat split|].
  destruct IH as (IHl & IHr & IHne); [discriminate|].
  rewrite join_cons. split; [now apply lstrip_app|]. split.
  - rewrite <- append_assoc. now apply rstrip_app.
  - now apply append_non_empty.
Qed.

Lemma strip_join (names : list string) :
  Forall (fun n => n <> EmptyString /\ strip n = n) names ->
  strip (Printer.join ", " names) = Printer.join ", " names.
Proof.
  intros H. destruct names as [|n names]; [reflexivity|].
  destruct (join_trimmed (n :: names) H) as (Hl & Hr & _); [discriminate|].
  unfold strip. now rewrite Hl.
Qed.
End SelectList.

(** X15: a select list written as names separated by a comma and a blank
    parses back to the same names, in the same order and with the same
    repetitions, for names that are not empty, are trimmed and hold no
    comma (the star among them). *)
Theorem parse_select_list_round_trip (names : list string) :
  Forall (fun n => n <> EmptyString /\ PyStr.strip n = n /\ free_of "," n = true) names ->
  parse_select_list (Printer.join ", " names) = names.
Proof.
  intros H.
  assert (Forall (fun n => n <> EmptyString /\ PyStr.strip n = n) names) as Hs.
  { eapply Forall_impl; [exact H|]. now intros n (H1 & H2 & H3). }
  assert (Forall (fun n => free_of "," n = true) names) as Hc.
  { eapply Forall_impl; [exact H|]. now intros n (H1 & H2 & H3). }
  unfold parse_select_list. rewrite (strip_join names Hs).
  destruct (PyStr.eqb (Printer.join ", " names) "*") eqn:E.
  - apply String.eqb_eq in E.
    destruct names as [|n [|m names]]; [discriminate | now rewrite <- E |].
    exfalso. rewrite join_cons in E.
    inversion Hs as [|? ? [Hn _] _]. subst.
    assert (String.length (n ++ ", " ++ Printer.join ", " (m :: names)) = 1%nat) as Hlen
      by now rewrite E.
    rewrite !length_app in Hlen. simpl in Hlen. lia.
  - rewrite (split_join names Hc). destruct names as [|n names].
    + rewrite filter_cons_False; [reflexivity | intros Hx; now apply Hx].
    + inversion Hs as [|? ? [Hn Hsn] Hs']. subst.
      rewrite filter_cons_True by now rewrite Hsn.
      cbn [fmap list_fmap]. rewrite Hsn. f_equal.
      clear -Hs'. induction Hs' as [|m names [Hm Hsm] _ IH]; [reflexivity|].
      cbn [fmap list_fmap].
      assert (PyStr.strip (String " " m) = m) as Hsp by exact Hsm.
      rewrite filter_cons_True by now rewrite Hsp.
      cbn [fmap list_fmap]. rewrite Hsp. f_equal. exact IH.
Qed.

Lemma parse_select_list_round_trip_witness :
  parse_select_list (Printer.join ", " ["name"; "*"; "COUNT(id)"; "name"])
  = ["name"; "*"; "COUNT(id)"; "name"].
Proof.
  apply parse_select_list_round_trip. repeat constructor; discriminate.
Defined.

(** ** The query text: semicolon and table reference *)

Section QueryTextFacts.
Import PyStr.

(** The parse depends on the text through [original_of] only. *)
Lemma parse_query_original (a b : string) :
  original_of a = original_of b ->
  parse_query a = (p ← parse_query b; Ok (with_raw_sql a p)).
Proof.
  intros H. rewrite !parse_query_unfold.
  unfold has_keywords, where_text, table_text, select_text, remaining_of. rewrite H.
  destruct (_ && _); [|reflexivity].
  destruct (_ =? -1); [reflexivity|].
  now destruct (parse_where_clause _).
Qed.

Lemma lstrip_snoc (s : string) : lstrip (s ++ ";") = lstrip s ++ ";".
Proof.
  induction s as [|c s IH]; [reflexivity|].
  change (String c s ++ ";") with (String c (s ++ ";")). simpl.
  now destruct (isspace c).
Qed.

Lemma endswith_snoc (x : string) : endswith (x ++ ";") ";" = true.
Proof.
  induction x as [|c x IH]; [reflexivity|].
  change (String c x ++ ";") with (String c (x ++ ";")). cbn [endswith].
  rewrite IH. apply orb_true_r.
Qed.

Lemma slice_to_snoc (x : string) : slice_to (x ++ ";") (-1) = x.
Proof.
  unfold slice_to, slice, clamp. cbn [Z.ltb Z.compare].
  assert (len (x ++ ";") = len x + 1) as ->
    by (unfold len; rewrite length_app; simpl; lia).
  rewrite Z.min_l, Z.max_r by (unfold len; lia).
  replace (Z.to_nat (-1 + (len x + 1) - 0)) with (String.length x) by (unfold len; lia).
  apply substring_app_prefix.
Qed.

Lemma original_of_semicolon (s : string) : original_of (s ++ ";") = strip s.
Proof.
  unfold original_of.
  assert (strip (s ++ ";") = lstrip s ++ ";") as ->.
  { unfold strip. rewrite lstrip_snoc. now apply rstrip_app. }
  rewrite endswith_snoc, slice_to_snoc. unfold strip. now rewrite lstrip_idempotent.
Qed.
End QueryTextFacts.

(** X16: one semicolon at the end of the query text is dropped, with the
    blanks in front of it: the query [s;] is parsed as [s] is (same select
    list, table and conditions, the raw text apart), provided [s] does not
    itself end, once trimmed, with a semicolon; a second semicolon is not
    dropped. *)
Theorem parse_query_semicolon (s : string) :
  original_of (s ++ ";") = PyStr.strip s
  /\ (PyStr.endswith (PyStr.strip s) ";" = false ->
      parse_query (s ++ ";") = (p ← parse_query s; Ok (with_raw_sql (s ++ ";") p))).
Proof.
  split; [apply original_of_semicolon|].
  intros H. apply parse_query_original. rewrite original_of_semicolon.
  unfold original_of. now rewrite H.
Qed.

Lemma parse_query_semicolon_witness :
  parse_query ("SELECT name FROM t WHERE id > 1  " ++ ";")
  = (p ← parse_query "SELECT name FROM t WHERE id > 1  ";
     Ok (with_raw_sql ("SELECT name FROM t WHERE id > 1  " ++ ";") p)).
Proof.
  refine (proj2 (parse_query_semicolon "SELECT name FROM t WHERE id > 1  ") _).
  reflexivity.
Defined.

Section TableReference.
Import PyStr.










End TableReference.



(** ** The table file: which file is read *)

Section Candidates.
Import PyStr Csv.

Lemma endswith_app (a p : string) : endswith (a ++ p) p = true.
Proof.
  induction a as [|c a IH].
  - change (EmptyString ++ p) with p. destruct p; cbn [endswith]; [reflexivity|].
    now rewrite String.eqb_refl.
  - change (String c a ++ p) with (String c (a ++ p)). cbn [endswith].
    rewrite IH. apply orb_true_r.
Qed.

Lemma candidates_csv (table_name : string) :
  candidates (table_name ++ ".csv") = [table_name ++ ".csv"].
Proof.
  unfold candidates. rewrite lower_app.
  change (lower ".csv") with ".csv". now rewrite endswith_app.
Qed.
End Candidates.

(** X18: which file [load_csv_table] reads.  The file called exactly like the
    table is read when it exists, whatever else exists; otherwise, for a
    name that does not end in [.csv] (in any case of the letters), the file
    [name.csv] is read as if it had been asked for; and when neither exists,
    or the name ends in [.csv] and no such file exists, the load raises
    [FileNotFoundError] naming the table. *)
Theorem load_csv_table_candidates (fs : Csv.file_system) (table_name : string) :
  (forall fs' : Csv.file_system,
      is_Some (fs table_name) -> fs' table_name = fs table_name ->
      Csv.load_csv_table fs' table_name = Csv.load_csv_table fs table_name)
  /\ (fs table_name = None ->
      PyStr.endswith (PyStr.lower table_name) ".csv" = false ->
      is_Some (fs (table_name ++ ".csv")) ->
      Csv.load_csv_table fs table_name = Csv.load_csv_table fs (table_name ++ ".csv"))
  /\ (fs table_name = None ->
      PyStr.endswith (PyStr.lower table_name) ".csv" = true
      \/ fs (table_name ++ ".csv") = None ->
      Csv.load_csv_table fs table_name
      = Raise (FileNotFoundError ("CSV file '" ++ table_name ++ "' not found."))).
Proof.
  split; [|split].
  - intros fs' [content Hc] Hfs. unfold Csv.load_csv_table, Csv.candidates.
    destruct (PyStr.endswith _ _); cbn [Csv.first_existing]; now rewrite Hfs, Hc.
  - intros Hnone Hext [content Hc]. unfold Csv.load_csv_table.
    rewrite candidates_csv. unfold Csv.candidates. rewrite Hext.
    cbn [Csv.first_existing]. now rewrite Hnone, Hc.
  - intros Hnone H. unfold Csv.load_csv_table, Csv.candidates.
    destruct (PyStr.endswith _ _); cbn [Csv.first_existing]; rewrite Hnone;
      [reflexivity|].
    destruct H as [H|H]; [discriminate | now rewrite H].
Qed.

(** ** The table file: the rows that are loaded *)

Section RawRows.
Import Csv.

Lemma elem_of_setitem (d : raw_row) (k : option string) (v : cell) (k' : option string) :
  k' ∈ (setitem d k v).*1 <-> k' = k \/ k' ∈ d.*1.
Proof.
  induction d as [|[k0 v0] d IH]; cbn [setitem].
  - cbn. rewrite list_elem_of_singleton. split; [auto|]. intros [H|H]; [exact H | inversion H].
  - destruct (decide (k0 = k)) as [->|Hne]; cbn [fmap list_fmap fst].
    + rewrite !elem_of_cons. tauto.
    + rewrite !elem_of_cons, IH. cbn. tauto.
Qed.

Lemma elem_of_dict_zip (fieldnames : list string) :
  forall (row : list string) (d : raw_row) (k' : option string),
    k' ∈ (dict_zip d fieldnames row).*1
    <-> k' ∈ d.*1 \/ k' ∈ Some <$> take (length row) fieldnames.
Proof.
  induction fieldnames as [|k ks IH]; intros row d k'.
  - destruct row; cbn; rewrite ?take_nil;
      (split; [auto | intros [H|H]; [exact H | inversion H]]).
  - destruct row as [|v vs]; cbn [dict_zip length take];
      [split; [auto | intros [H|H]; [exact H | inversion H]]|].
    rewrite IH, elem_of_setitem. cbn [fmap list_fmap]. rewrite elem_of_cons. tauto.
Qed.

Lemma elem_of_fold_missing (ks : list string) :
  forall (d : raw_row) (k' : option string),
    k' ∈ (fold_left (fun d key => setitem d (Some key) Missing) ks d).*1
    <-> k' ∈ d.*1 \/ k' ∈ Some <$> ks.
Proof.
  induction ks as [|k ks IH]; intros d k'; cbn [fold_left];
    [split; [auto | intros [H|H]; [exact H | inversion H]]|].
  rewrite IH, elem_of_setitem. cbn [fmap list_fmap]. rewrite elem_of_cons. tauto.
Qed.

(** The keys of the dictionary of a row: the field names, and [None] when
    the row has fields in excess. *)
Lemma elem_of_dict_of_row (fieldnames row : list string) (k' : option string) :
  k' ∈ (dict_of_row fieldnames row).*1
  <-> (k' = None /\ (length fieldnames < length row)%nat)
      \/ k' ∈ Some <$> fieldnames.
Proof.
  unfold dict_of_row.
  assert (k' ∈ Some <$> fieldnames
          <-> k' ∈ Some <$> take (length row) fieldnames
              \/ k' ∈ Some <$> drop (length row) fieldnames) as Hsplit.
  { now rewrite <- elem_of_app, <- fmap_app, take_drop. }
  assert (k' ∉ ([] : raw_row).*1) as Hnil by (cbn; apply not_elem_of_nil).
  destruct (Nat.ltb_spec (length fieldnames) (length row)) as [Hlong|Hle].
  - rewrite elem_of_setitem, elem_of_dict_zip, take_ge by lia. tauto.
  - destruct (Nat.ltb_spec (length row) (length fieldnames)) as [Hshort|Hge].
    + rewrite elem_of_fold_missing, elem_of_dict_zip, Hsplit.
      split; [tauto|]. intros [[_ H]|H]; [lia | tauto].
    + rewrite elem_of_dict_zip, take_ge by lia.
      split; [tauto|]. intros [[_ H]|H]; [lia | tauto].
Qed.

(** What the comprehension builds when it does not raise. *)
Lemma normalize_items_ok (d : raw_row) :
  forall acc r : Engine.row,
    normalize_items d acc = Ok r ->
    Forall (fun e => is_Some (fst e)) d
    /\ dom r = dom acc ∪ list_to_set (normalize_colname <$> omap fst d)
    /\ (trimmed acc -> trimmed r).
Proof.
  assert (forall (acc : Engine.row) n v,
             trimmed acc -> PyStr.strip v = v -> trimmed (<[n:=v]> acc)) as Hins.
  { intros acc n v Ha Hv k x. rewrite lookup_insert.
    destruct (decide (n = k)); [now intros [= <-] | apply Ha]. }
  induction d as [|[[k|] v] d IH]; intros acc r H.
  - injection H as <-. split; [constructor|]. split; [|auto].
    cbn. now rewrite (right_id_L ∅ (∪)).
  - destruct v as [s| |l]; cbn [normalize_items] in H; [| |discriminate];
      destruct (IH _ _ H) as (H1 & H2 & H3);
      (split; [constructor; [cbn; eauto | exact H1]|]);
      (split; [rewrite H2, dom_insert_L; cbn; apply set_eq; intros x;
               rewrite !elem_of_union; tauto|]);
      intros Ha; apply H3, Hins; auto using strip_idempotent.
  - discriminate.
Qed.
End RawRows.

(** X19: the table that [load_csv_table] returns is well formed: every row
    holds exactly the columns of the table, every value is trimmed, and
    every column name is normalized. *)
Theorem load_csv_table_well_formed (fs : Csv.file_system) (table_name : string)
    (rows : list row) (columns : list string) :
  Csv.load_csv_table fs table_name = Ok (rows, columns) ->
  Forall (row_of columns) rows
  /\ Forall trimmed rows
  /\ Forall (fun c => normalize_colname c = c) columns.
Proof.
  unfold Csv.load_csv_table.
  destruct (Csv.first_existing fs (Csv.candidates table_name))
    as [[filepath [[|fieldnames records] stop]]|]; [| |discriminate].
  - destruct stop; [discriminate|]. intros [= <- <-]. repeat constructor.
  - intros H. apply bind_ok_inv in H as (rs & Hrows & [= <- <-]).
    assert (Forall (row_of (normalize_colname <$> fieldnames)) rs /\ Forall trimmed rs)
      as [H1 H2].
    { revert rs Hrows. induction records as [|record records IH]; intros rs Hrows.
      - cbn in Hrows. destruct stop; [discriminate|]. injection Hrows as <-.
        split; constructor.
      - destruct record as [|x record]; [exact (IH rs Hrows)|].
        cbn [Csv.load_rows] in Hrows.
        apply bind_ok_inv in Hrows as (r & Hr & Hrows).
        apply bind_ok_inv in Hrows as (rs' & Hrs & [= <-]).
        destruct (IH rs' Hrs) as [IH1 IH2].
        destruct (normalize_items_ok _ _ _ Hr) as (Hkeys & Hdom & Htrim).
        split; constructor; try assumption.
        + unfold row_of. rewrite Hdom, dom_empty_L, (left_id_L ∅ (∪)).
          apply set_eq. intros n. rewrite !elem_of_list_to_set, !list_elem_of_fmap.
          split; intros (k & -> & Hk); exists k; (split; [reflexivity|]).
          * apply list_elem_of_omap in Hk as ([k0 v0] & He & Hk0). cbn in Hk0. subst k0.
            assert (Some k ∈ (Csv.dict_of_row fieldnames (x :: record)).*1) as Hin
              by (apply list_elem_of_fmap; exists (Some k, v0); now split).
            apply elem_of_dict_of_row in Hin as [[? _]|Hin]; [discriminate|].
            apply list_elem_of_fmap in Hin as (k' & [= <-] & Hin). exact Hin.
          * assert (Some k ∈ (Csv.dict_of_row fieldnames (x :: record)).*1) as Hin.
            { apply elem_of_dict_of_row. right. apply list_elem_of_fmap. eauto. }
            apply list_elem_of_fmap in Hin as ([k0 v0] & Hk0 & He). cbn in Hk0. subst k0.
            apply list_elem_of_omap. exists (Some k, v0). now split.
        + apply Htrim. intros k v. now rewrite lookup_empty. }
    split; [exact H1|]. split; [exact H2|].
    apply Forall_fmap, Forall_forall. intros c _. cbn.
    apply normalize_colname_idempotent.
Qed.

Lemma load_csv_table_well_formed_witness :
  Forall (row_of ["id"; "name"])
         [ ({[ "id" := "1"; "name" := "Ann" ]} : row);
           {[ "id" := "2"; "name" := EmptyString ]} ]
  /\ Forall trimmed
         [ ({[ "id" := "1"; "name" := "Ann" ]} : row);
           {[ "id" := "2"; "name" := EmptyString ]} ]
  /\ Forall (fun c => normalize_colname c = c) ["id"; "name"].
Proof.
  apply (load_csv_table_well_formed example_files "t").
  vm_compute; reflexivity.
Defined.

(** ** The cells of a loaded table *)

Section Cells.
Import Csv.

Lemma setitem_fresh (d : raw_row) (k : option string) (v : cell) :
  k ∉ d.*1 -> setitem d k v = (d ++ [(k, v)])%list.
Proof.
  induction d as [|[k0 v0] d IH]; cbn [setitem]; [reflexivity|].
  cbn [fmap list_fmap fst]. rewrite not_elem_of_cons. intros [Hne Hd].
  destruct (decide (k0 = k)) as [->|_]; [now destruct Hne|].
  now rewrite IH.
Qed.

Lemma expected_keys (ks : list string) :
  forall vs : list string, (expected ks vs).*1 = Some <$> ks.
Proof.
  induction ks as [|k ks IH]; intros vs; [reflexivity|].
  destruct vs as [|v vs]; cbn [expected fmap list_fmap fst]; f_equal; apply IH.
Qed.

Lemma fresh_snoc (d : raw_row) (k : string) (v : cell) (ks : list string) :
  k ∉ ks -> (forall k', k' ∈ k :: ks -> Some k' ∉ d.*1) ->
  forall k', k' ∈ ks -> Some k' ∉ ((d ++ [(Some k, v)])%list).*1.
Proof.
  intros Hk Hd k' Hk'. rewrite fmap_app, elem_of_app. intros [H|H].
  - apply (Hd k'); [now right | exact H].
  - apply list_elem_of_singleton in H. injection H as ->. contradiction.
Qed.

Lemma fold_missing_expected (ks : list string) :
  forall d : raw_row,
    NoDup ks -> (forall k, k ∈ ks -> Some k ∉ d.*1) ->
    fold_left (fun d key => setitem d (Some key) Missing) ks d
    = (d ++ expected ks [])%list.
Proof.
  induction ks as [|k ks IH]; intros d Hnd Hd.
  - cbn. now rewrite app_nil_r.
  - apply NoDup_cons in Hnd as [Hk Hnd]. cbn [fold_left expected].
    rewrite setitem_fresh by (apply Hd; left).
    rewrite IH; [now rewrite <- app_assoc | exact Hnd | now apply fresh_snoc].
Qed.

Lemma dict_zip_expected (ks : list string) :
  forall (vs : list string) (d : raw_row),
    NoDup ks -> (forall k, k ∈ ks -> Some k ∉ d.*1) ->
    (length vs <= length ks)%nat ->
    fold_left (fun d key => setitem d (Some key) Missing) (drop (length vs) ks)
              (dict_zip d ks vs)
    = (d ++ expected ks vs)%list.
Proof.
  induction ks as [|k ks IH]; intros vs d Hnd Hd Hlen.
  - destruct vs; cbn; now rewrite app_nil_r.
  - destruct vs as [|v vs].
    + cbn [length drop dict_zip]. now apply fold_missing_expected.
    + apply NoDup_cons in Hnd as [Hk Hnd]. cbn [length drop dict_zip expected].
      rewrite setitem_fresh by (apply Hd; left).
      rewrite IH; [now rewrite <- app_assoc | exact Hnd | now apply fresh_snoc
                  | cbn in Hlen; lia].
Qed.

(** For a header without repeated name and a row that is not too long, the
    dictionary of [DictReader] is the expected one. *)
Lemma dict_of_row_expected (header record : list string) :
  NoDup header -> (length record <= length header)%nat ->
  dict_of_row header record = expected header record.
Proof.
  intros Hnd Hlen. unfold dict_of_row.
  pose proof (dict_zip_expected header record [] Hnd) as H.
  cbn [app] in H.
  destruct (Nat.ltb_spec (length header) (length record)) as [Hlong|_]; [lia|].
  destruct (Nat.ltb_spec (length record) (length header)) as [Hshort|Hge].
  - apply H; [|exact Hlen]. intros k _. cbn. apply not_elem_of_nil.
  - rewrite <- H; [|intros k _; cbn; apply not_elem_of_nil|exact Hlen].
    now rewrite drop_ge by lia.
Qed.

Lemma normalize_items_expected (header : list string) :
  forall (record : list string) (acc : Engine.row),
    NoDup (normalize_colname <$> header) ->
    exists r : Engine.row,
      normalize_items (expected header record) acc = Ok r
      /\ (forall (i : nat) k, header !! i = Some k ->
            r !! normalize_colname k
            = Some (PyStr.strip (default EmptyString (record !! i))))
      /\ (forall n, n ∉ normalize_colname <$> header -> r !! n = acc !! n).
Proof.
  induction header as [|k ks IH]; intros record acc Hnd.
  - exists acc. split; [reflexivity|]. split; [intros i k H; discriminate | auto].
  - cbn [fmap list_fmap] in Hnd. apply NoDup_cons in Hnd as [Hk Hnd].
    destruct record as [|v vs]; cbn [expected normalize_items].
    + destruct (IH [] (<[normalize_colname k := EmptyString]> acc) Hnd)
        as (r & Hr & Hcells & Hrest).
      exists r. split; [exact Hr|]. split.
      * intros [|i] k' Hi.
        -- injection Hi as <-. rewrite (Hrest _ Hk). now rewrite lookup_insert_eq.
        -- rewrite (Hcells i k' Hi). now rewrite lookup_nil.
      * intros n Hn. cbn [fmap list_fmap] in Hn. apply not_elem_of_cons in Hn as [Hne Hn].
        rewrite (Hrest n Hn). now rewrite lookup_insert_ne.
    + destruct (IH vs (<[normalize_colname k := PyStr.strip v]> acc) Hnd)
        as (r & Hr & Hcells & Hrest).
      exists r. split; [exact Hr|]. split.
      * intros [|i] k' Hi.
        -- injection Hi as <-. rewrite (Hrest _ Hk). now rewrite lookup_insert_eq.
        -- exact (Hcells i k' Hi).
      * intros n Hn. cbn [fmap list_fmap] in Hn. apply not_elem_of_cons in Hn as [Hne Hn].
        rewrite (Hrest n Hn). now rewrite lookup_insert_ne.
Qed.

Lemma NoDup_normalized (header : list string) :
  NoDup (normalize_colname <$> header) -> NoDup header.
Proof. apply NoDup_fmap_1. Qed.

End Cells.

(** X20: on a file whose header holds no two names with the same normalized
    form and whose rows are not longer than the header, the load returns
    one row for each line that is not blank, in the order of the file; the
    value of a column is the trimmed field at the position of the column,
    and the empty text where the line is too short. *)
Theorem load_csv_table_cells (fs : Csv.file_system) (table_name path : string)
    (header : list string) (records : list (list string)) :
  Csv.first_existing fs (Csv.candidates table_name)
  = Some (path, (header :: records, None)) ->
  NoDup (normalize_colname <$> header) ->
  Forall (fun record => ~ long header record) records ->
  exists rows : list row,
    Csv.load_csv_table fs table_name = Ok (rows, normalize_colname <$> header)
    /\ Forall2 (fun (record : list string) (r : row) =>
                  forall (i : nat) k, header !! i = Some k ->
                    r !! normalize_colname k
                    = Some (PyStr.strip (default EmptyString (record !! i))))
               (filter (fun record => record ≠ []) records) rows.
Proof.
  intros Hfile Hnd Hshort. unfold Csv.load_csv_table. rewrite Hfile.
  assert (exists rows : list row,
             Csv.load_rows header records None = Ok rows
             /\ Forall2 (fun (record : list string) (r : row) =>
                  forall (i : nat) k, header !! i = Some k ->
                    r !! normalize_colname k
                    = Some (PyStr.strip (default EmptyString (record !! i))))
               (filter (fun record => record ≠ []) records) rows)
    as (rows & Hrows & Hcells).
  { clear Hfile. induction Hshort as [|record records Hrec Hshort IH].
    - exists []. split; [reflexivity | constructor].
    - destruct IH as (rows & Hrows & Hcells).
      destruct record as [|x record].
      + exists rows. split; [exact Hrows|].
        rewrite filter_cons_False by (intros H; now apply H). exact Hcells.
      + cbn [Csv.load_rows].
        rewrite dict_of_row_expected;
          [|now apply NoDup_normalized|unfold long in Hrec; lia].
        destruct (normalize_items_expected header (x :: record) ∅ Hnd)
          as (r & Hr & Hcell & _).
        rewrite Hr, bind_ok, Hrows, bind_ok.
        exists (r :: rows). split; [reflexivity|].
        rewrite filter_cons_True by discriminate.
        constructor; [exact Hcell | exact Hcells]. }
  rewrite Hrows, bind_ok. exists rows. split; [reflexivity | exact Hcells].
Qed.

Lemma load_csv_table_cells_witness :
  exists rows : list row,
    Csv.load_csv_table example_files "t" = Ok (rows, normalize_colname <$> ["ID"; " Name "])
    /\ Forall2 (fun (record : list string) (r : row) =>
                  forall (i : nat) k, ["ID"; " Name "] !! i = Some k ->
                    r !! normalize_colname k
                    = Some (PyStr.strip (default EmptyString (record !! i))))
               (filter (fun record => record ≠ []) [["1"; " Ann "]; []; ["2"]]) rows.
Proof.
  apply (load_csv_table_cells example_files "t" "t.csv").
  - reflexivity.
  - apply (bool_decide_unpack _). vm_compute. reflexivity.
  - unfold long. repeat constructor; cbn; lia.
Defined.

(** ** The failures of the load *)

Section Failures.
Import Csv.

Lemma setitem_named (d : raw_row) (k : option string) (v : cell) :
  forallb named d = true -> named (k, v) = true ->
  forallb named (setitem d k v) = true.
Proof.
  intros Hd Hv. induction d as [|[k0 v0] d IH]; cbn [setitem].
  - cbn [forallb]. now rewrite Hv.
  - cbn [forallb] in Hd. apply andb_true_iff in Hd as [H0 Hd].
    destruct (decide (k0 = k)); cbn [forallb]; apply andb_true_iff; auto.
Qed.

Lemma dict_zip_named (ks : list string) :
  forall (vs : list string) (d : raw_row),
    forallb named d = true -> forallb named (dict_zip d ks vs) = true.
Proof.
  induction ks as [|k ks IH]; intros vs d Hd; [now destruct vs|].
  destruct vs as [|v vs]; [exact Hd|]. cbn [dict_zip].
  apply IH, setitem_named; [exact Hd | reflexivity].
Qed.

Lemma fold_missing_named (ks : list string) :
  forall d : raw_row,
    forallb named d = true ->
    forallb named (fold_left (fun d key => setitem d (Some key) Missing) ks d) = true.
Proof.
  induction ks as [|k ks IH]; intros d Hd; [exact Hd|]. cbn [fold_left].
  apply IH, setitem_named; [exact Hd | reflexivity].
Qed.

Lemma named_keys (d : raw_row) : forallb named d = true -> None ∉ d.*1.
Proof.
  induction d as [|[[k|] v] d IH]; cbn [forallb fmap list_fmap fst].
  - intros _. apply not_elem_of_nil.
  - intros H. apply andb_true_iff in H as [_ H]. apply not_elem_of_cons. auto.
  - discriminate.
Qed.

Lemma normalize_items_named (d : raw_row) :
  forall acc : Engine.row,
    forallb named d = true -> is_ok (normalize_items d acc) = true.
Proof.
  induction d as [|[[k|] [v| |l]] d IH]; intros acc H; cbn [forallb named] in H;
    try discriminate; cbn [normalize_items]; [reflexivity| |]; now apply IH.
Qed.

Lemma normalize_items_none (d : raw_row) (x : cell) :
  forall acc : Engine.row,
    forallb named d = true ->
    normalize_items (d ++ [(None, x)])%list acc = Raise none_has_no_strip.
Proof.
  induction d as [|[[k|] [v| |l]] d IH]; intros acc H; cbn [forallb named] in H;
    try discriminate; cbn [normalize_items app]; [reflexivity| |]; now apply IH.
Qed.

Lemma dict_of_row_outcome (header record : list string) (acc : Engine.row) :
  (long header record ->
   normalize_items (dict_of_row header record) acc = Raise none_has_no_strip)
  /\ (~ long header record ->
      is_ok (normalize_items (dict_of_row header record) acc) = true).
Proof.
  unfold long, dict_of_row.
  assert (forallb named (dict_zip [] header record) = true) as Hzip
    by now apply dict_zip_named.
  destruct (Nat.ltb_spec (length header) (length record)) as [Hlong|Hle].
  - split; [intros _|lia].
    rewrite setitem_fresh by now apply named_keys.
    now apply normalize_items_none.
  - split; [lia|intros _].
    destruct (Nat.ltb_spec (length record) (length header)) as [Hshort|Hge];
      apply normalize_items_named; [now apply fold_missing_named | exact Hzip].
Qed.

Lemma load_rows_long (header : list string) (records : list (list string))
    (stop : option exn) :
  Exists (long header) records ->
  load_rows header records stop = Raise none_has_no_strip.
Proof.
  induction records as [|record records IH]; intros H; [inversion H|].
  destruct record as [|x record].
  - cbn [load_rows]. apply IH. inversion H as [? ? Hl|]; [|assumption].
    unfold long in Hl. cbn in Hl. lia.
  - cbn [load_rows].
    destruct (dict_of_row_outcome header (x :: record) ∅) as [Hlong Hshort].
    destruct (decide (length header < length (x :: record))%nat) as [Hl|Hl].
    + now rewrite (Hlong Hl).
    + specialize (Hshort Hl).
      destruct (normalize_items (dict_of_row header (x :: record)) ∅) as [r|e];
        [|discriminate].
      rewrite bind_ok, IH; [reflexivity|]. inversion H; [contradiction | assumption].
Qed.

Lemma load_rows_short (header : list string) (records : list (list string))
    (stop : option exn) :
  Forall (fun record => ~ long header record) records ->
  match stop with
  | Some e => load_rows header records stop = Raise e
  | None => is_ok (load_rows header records stop) = true
  end.
Proof.
  induction 1 as [|record records Hrec _ IH]; [now destruct stop|].
  destruct record as [|x record]; [exact IH|]. cbn [load_rows].
  destruct (dict_of_row_outcome header (x :: record) ∅) as [_ Hshort].
  specialize (Hshort Hrec).
  destruct (normalize_items (dict_of_row header (x :: record)) ∅) as [r|e];
    [|discriminate].
  rewrite bind_ok. destruct stop as [e|].
  - now rewrite IH.
  - destruct (load_rows header records None); [reflexivity | discriminate].
Qed.

End Failures.

(** X21: how the load of an existing file with a header fails.  A row with
    more fields than the header makes it raise the [AttributeError] of
    [None.strip()], whatever the other rows are; otherwise the load raises
    what the reader raises, and returns when the reader raises nothing. *)
Theorem load_csv_table_failures (fs : Csv.file_system) (table_name path : string)
    (header : list string) (records : list (list string)) (stop : option exn) :
  Csv.first_existing fs (Csv.candidates table_name)
  = Some (path, (header :: records, stop)) ->
  (Exists (long header) records ->
   Csv.load_csv_table fs table_name = Raise none_has_no_strip)
  /\ (Forall (fun record => ~ long header record) records ->
      match stop with
      | Some e => Csv.load_csv_table fs table_name = Raise e
      | None => is_ok (Csv.load_csv_table fs table_name) = true
      end).
Proof.
  intros Hfile. unfold Csv.load_csv_table. rewrite Hfile. split.
  - intros H. now rewrite load_rows_long.
  - intros H. pose proof (load_rows_short header records stop H) as Hs.
    destruct stop as [e|].
    + now rewrite Hs.
    + destruct (Csv.load_rows header records None); [reflexivity | discriminate].
Qed.

Lemma load_csv_table_failures_witness :
  (Exists (long ["ID"; " Name "]) [["1"; " Ann "]; ["2"; "Bob"; "x"]; ["3"]] ->
   Csv.load_csv_table long_row_files "t" = Raise none_has_no_strip)
  /\ (Forall (fun record => ~ long ["ID"; " Name "] record)
             [["1"; " Ann "]; ["2"; "Bob"; "x"]; ["3"]] ->
      is_ok (Csv.load_csv_table long_row_files "t") = true).
Proof.
  apply (load_csv_table_failures long_row_files "t" "t.csv" _ _ None).
  reflexivity.
Defined.

(** ** Printing *)

Section Printing.
Import Printer.

Lemma length_repeat_char (c : ascii) (n : nat) : String.length (repeat_char c n) = n.
Proof. induction n as [|n IH]; cbn; [reflexivity | now rewrite IH]. Qed.

Lemma length_ljust (s : string) (w : nat) :
  (String.length s <= w)%nat -> String.length (ljust s w) = w.
Proof.
  intros H. unfold ljust. rewrite length_app, length_repeat_char. lia.
Qed.

(** The length of a joined line depends on the lengths of its parts and of
    the separator only. *)
Lemma length_join (sep sep' : string) (f g : string -> string) (cols : list string) :
  String.length sep = String.length sep' ->
  (forall c, c ∈ cols -> String.length (f c) = String.length (g c)) ->
  String.length (join sep (f <$> cols)) = String.length (join sep' (g <$> cols)).
Proof.
  intros Hsep. induction cols as [|c cols IH]; intros H; [reflexivity|].
  assert (String.length (f c) = String.length (g c)) as Hc by (apply H; left).
  assert (String.length (join sep (f <$> cols)) = String.length (join sep' (g <$> cols)))
    as Hrest by (apply IH; intros c' Hc'; apply H; now right).
  destruct cols as [|c' cols]; [exact Hc|].
  change (String.length (f c ++ sep ++ join sep (f <$> c' :: cols))
          = String.length (g c ++ sep' ++ join sep' (g <$> c' :: cols))).
  rewrite !length_app. lia.
Qed.

Lemma name_le_width (rows : list record) (c : string) :
  (String.length c <= width rows c)%nat.
Proof. unfold width. lia. Qed.

Lemma cell_le_width (rows : list record) (r : record) (c : string) :
  r ∈ rows -> (String.length (cell_text r c) <= width rows c)%nat.
Proof.
  unfold width. intros H.
  enough (String.length (cell_text r c)
          <= fold_right Nat.max 0 ((fun r => String.length (cell_text r c)) <$> rows))%nat
    by lia.
  induction rows as [|r0 rows IH]; [inversion H|].
  cbn [fmap list_fmap fold_right].
  apply elem_of_cons in H as [->|H]; [lia|]. specialize (IH H). lia.
Qed.

Lemma rule_chars (widths : list nat) :
  all_chars (fun c => Ascii.eqb c "-" || Ascii.eqb c "+")
            (join "-+-" (repeat_char "-" <$> widths)) = true.
Proof.
  assert (forall n, all_chars (fun c => Ascii.eqb c "-" || Ascii.eqb c "+")
                              (repeat_char "-" n) = true) as Hrep
    by (induction n as [|n IH]; [reflexivity | exact IH]).
  induction widths as [|w widths IH]; [reflexivity|].
  destruct widths as [|w' widths]; [apply Hrep|].
  change (all_chars (fun c => Ascii.eqb c "-" || Ascii.eqb c "+")
            (repeat_char "-" w ++ "-+-" ++ join "-+-" (repeat_char "-" <$> w' :: widths))
          = true).
  rewrite !all_chars_app, Hrep, IH. reflexivity.
Qed.

Lemma aggregate_count_records (results : list (string * Z)) :
  aggregate (count_record <$> results) = true.
Proof. induction results as [|e results IH]; [reflexivity | exact IH]. Qed.

Lemma count_lines (results : list (string * Z)) :
  (fun r => cell_text r "expr" ++ ": " ++ cell_text r "count") <$> (count_record <$> results)
  = (fun e => e.1 ++ ": " ++ PyNum.str_int e.2) <$> results.
Proof.
  induction results as [|e results IH]; [reflexivity|].
  cbn [fmap list_fmap]. f_equal. exact IH.
Qed.

Lemma print_count_records (results : list (string * Z)) :
  results <> [] ->
  print_results (count_record <$> results)
  = (fun e => e.1 ++ ": " ++ PyNum.str_int e.2) <$> results.
Proof.
  intros Hne. destruct results as [|e es]; [contradiction|].
  pose proof (aggregate_count_records (e :: es)) as Ha. unfold aggregate in Ha.
  rewrite <- count_lines. unfold print_results.
  change (count_record <$> e :: es) with (count_record e :: (count_record <$> es)) in *.
  cbv beta iota. now rewrite Ha.
Qed.

End Printing.

(** X22: rows that are not all COUNT records are printed as a table: a line
    of column names, a rule made of dashes and plus signs, and one line for
    each row; all these lines have the same length, so that the columns are
    aligned. *)
Theorem print_results_table (rows : list Printer.record) :
  rows <> [] -> aggregate rows = false ->
  exists (header rule : string) (lines : list string),
    Printer.print_results rows = header :: rule :: lines
    /\ length lines = length rows
    /\ Forall (fun line => String.length line = String.length header) (rule :: lines)
    /\ all_chars (fun c => Ascii.eqb c "-" || Ascii.eqb c "+") rule = true.
Proof.
  intros Hne Hagg. destruct rows as [|first rest]; [contradiction|].
  unfold Printer.print_results. fold (aggregate (first :: rest)). rewrite Hagg.
  set (rows := first :: rest) in *. cbv zeta.
  eexists _, _, _. split; [reflexivity|].
  split; [apply length_fmap|]. split.
  - constructor.
    + apply length_join; [reflexivity|]. intros c _. cbn.
      rewrite length_repeat_char, length_ljust; [reflexivity | apply name_le_width].
    + apply Forall_fmap, Forall_forall. intros r Hr. cbn.
      apply length_join; [reflexivity|]. intros c _.
      rewrite !length_ljust; [reflexivity | apply name_le_width | now apply cell_le_width].
  - rewrite (list_fmap_compose (fun c => Printer.width rows c) (Printer.repeat_char "-")).
    apply rule_chars.
Qed.

Lemma print_results_table_witness :
  exists (header rule : string) (lines : list string),
    Printer.print_results
      [ [("id", Printer.VStr "1"); ("name", Printer.VStr "Al")];
        [("id", Printer.VStr "20"); ("name", Printer.VStr "Amy")] ]
    = header :: rule :: lines
    /\ length lines
       = length [ [("id", Printer.VStr "1"); ("name", Printer.VStr "Al")];
                  [("id", Printer.VStr "20"); ("name", Printer.VStr "Amy")] ]
    /\ Forall (fun line => String.length line = String.length header) (rule :: lines)
    /\ all_chars (fun c => Ascii.eqb c "-" || Ascii.eqb c "+") rule = true.
Proof.
  apply print_results_table; [discriminate | reflexivity].
Defined.

(** X23: the result of a COUNT query is never empty, and it is printed as
    one line [expression: count] for each entry of the select list, without
    header. *)
Theorem print_results_counts (load : loader) (p : parsed) (results : list (string * Z)) :
  execute_query load p = Ok (Counts results) ->
  results <> []
  /\ Printer.print_results (count_record <$> results)
     = (fun e => e.1 ++ ": " ++ PyNum.str_int e.2) <$> results.
Proof.
  intros H. unfold execute_query in H.
  apply bind_ok_inv in H as ([rows columns] & _ & H).
  apply bind_ok_inv in H as (filtered & _ & H).
  destruct (bool_decide (q_select p = ["*"])); [discriminate|].
  destruct (existsb is_count (q_select p)) eqn:Hc.
  - injection H as <-. destruct (q_select p) as [|s sel]; [discriminate|].
    split; [discriminate|]. now apply print_count_records.
  - apply bind_ok_inv in H as (projected & _ & H). discriminate.
Qed.

Lemma print_results_counts_witness :
  [("COUNT(*)", 2); ("COUNT(Name)", 2)] <> []
  /\ Printer.print_results (count_record <$> [("COUNT(*)", 2); ("COUNT(Name)", 2)])
     = (fun e => e.1 ++ ": " ++ PyNum.str_int e.2) <$> [("COUNT(*)", 2); ("COUNT(Name)", 2)].
Proof.
  apply (print_results_counts example_loader
           (Parsed ["COUNT(*)"; "count( Name )"] "t" None "SELECT COUNT(*), count( Name ) FROM t")).
  vm_compute; reflexivity.
Defined.

(** ** A WHERE clause on an unknown column *)

Section UnknownColumn.

Variables (columns : list string) (r : row).
Hypothesis Hrow : row_of columns r.


End UnknownColumn.



(** ** Letter case and blanks in a comparison *)

Section LetterCase.
Import PyStr.

(** A change of letters that keeps blanks, digits, the marks of a numeral
    and the lower-case form: [lower_char] and [upper_char] are such. *)
Variable f : ascii -> ascii.
Hypothesis f_space : forall c, isspace (f c) = isspace c.
Hypothesis f_digit : forall c, isdigit (f c) = isdigit c.
Hypothesis f_digit_id : forall c, isdigit c = true -> f c = c.
Hypothesis f_mark : forall c x,
  x = "_"%char \/ x = "+"%char \/ x = "-"%char \/ x = "."%char ->
  Ascii.eqb (f c) x = Ascii.eqb c x.
Hypothesis f_exp : forall c,
  Ascii.eqb (f c) "e" || Ascii.eqb (f c) "E" = Ascii.eqb c "e" || Ascii.eqb c "E".
Hypothesis f_lower : forall c, lower_char (f c) = lower_char c.














End LetterCase.




